(** * UserProxyAgent: a shallow embedding of
      [flaml/autogen/agent/user_proxy_agent.py]

    The development follows the Python class method by method:

    - Python [str] values are Rocq [string]s (characters with code points
      0..255); [bytes] are [list Byte.byte]; Python [int]s are [Z];
    - [json.loads] (Python standard library) is modelled by [Json.loads],
      a decoder for the grammar CPython's [json.decoder] accepts, under
      the interpreter's limits on nesting and on the digits of an integer;
    - the text of an exception the interpreter words ([str(e)] of a
      [UnicodeDecodeError], say) is given by the environment;
    - the methods of the class live in a state-and-exception monad [M] over
      the agent's fields, the state of the outside world and a trace of
      the calls made to the external collaborators ([input], [execute_code],
      the transport of the base class [Agent]);
    - [_send] and [super().receive] belong to the base class, which is not
      in the file: a call is recorded in the trace, and what the peer does
      when the message is delivered is outside the model. *)

From Stdlib Require Import Ascii ZArith Lia Bool.
From Stdlib Require String.
From stdpp Require Import gmap strings pretty.

Local Open Scope Z_scope.
Set Warnings "-register-all".

(** ** Characters and string primitives of Python used by the class *)

Module Py.

Definition dquote : ascii := "034"%char.
Definition backslash : ascii := "092"%char.
Definition newline : ascii := "010"%char.
Definition tab : ascii := "009"%char.

(** A one-character string. *)
Definition chr (c : ascii) : string := String c EmptyString.

(** [s] written between double quotes. *)
Definition quoted (s : string) : string := chr dquote +:+ s +:+ chr dquote.

(** Truthiness of a [str]: only the empty string is falsy. *)
Definition truthy (s : string) : bool :=
  match s with EmptyString => false | String _ _ => true end.

(** [s.startswith(p)]. *)
Definition startswith (s p : string) : bool := String.prefix p s.

(** [s.find(sub)]: the lowest index of [sub] in [s], or -1. *)
Definition find (s sub : string) : Z :=
  match String.index 0 sub s with
  | Some i => Z.of_nat i
  | None => -1
  end.

(** A slice bound as Python normalises it against the length [len]:
    a negative bound counts from the end, and the result is clamped
    to [0..len]. *)
Definition clamp (len i : Z) : Z :=
  let i := if i <? 0 then i + len else i in
  if i <? 0 then 0 else if len <? i then len else i.

(** [s[start:stop]]. *)
Definition slice (s : string) (start stop : Z) : string :=
  let len := Z.of_nat (String.length s) in
  let a := clamp len start in
  let b := clamp len stop in
  String.substring (Z.to_nat a) (Z.to_nat (b - a)) s.

(** [c.isspace()] for the characters below 256: the ASCII white space,
    the separators 0x1c..0x1f, NEL (0x85) and the no-break space (0xa0). *)
Definition isspace (c : ascii) : bool :=
  let n := Z.of_N (N_of_ascii c) in
  ((9 <=? n) && (n <=? 13)) || ((28 <=? n) && (n <=? 32))
  || (n =? 133) || (n =? 160).

Fixpoint lstrip (s : string) : string :=
  match s with
  | String c r => if isspace c then lstrip r else s
  | EmptyString => EmptyString
  end.

Fixpoint rstrip (s : string) : string :=
  match s with
  | EmptyString => EmptyString
  | String c r =>
      match rstrip r with
      | EmptyString => if isspace c then EmptyString else chr c
      | r' => String c r'
      end
  end.

(** [s.strip()]. *)
Definition strip (s : string) : string := rstrip (lstrip s).

(** [s[:-1]]: [s] without its last character. *)
Definition all_but_last (s : string) : string :=
  String.substring 0 (String.length s - 1) s.

(** [x in xs] for a list of strings. *)
Definition in_list (x : string) (xs : list string) : bool :=
  existsb (String.eqb x) xs.

(** [sep.join(parts)] with the empty separator. *)
Definition join (parts : list string) : string :=
  foldr String.append EmptyString parts.

End Py.

(** ** [_format_json_str] *)

(** The body of the [for char in jstr] loop, with the three loop variables
    [inside_quotes], [last_char] and [result]. After the reassignments
    [char = "\\n"] and [char = "\\t"] the variable [char] holds a string of
    two characters, so the appended element is a string. *)
Fixpoint format_loop (jstr : string) (inside_quotes : bool) (last_char : ascii)
    (result : list string) : list string :=
  match jstr with
  | EmptyString => result
  | String char rest =>
      let inside_quotes :=
        if negb (Ascii.eqb last_char Py.backslash) && Ascii.eqb char Py.dquote
        then negb inside_quotes else inside_quotes in
      let last_char := char in
      if negb inside_quotes && Ascii.eqb char Py.newline
      then format_loop rest inside_quotes last_char result
      else
        let char1 :=
          if inside_quotes && Ascii.eqb char Py.newline
          then String Py.backslash "n" else Py.chr char in
        let char2 :=
          if inside_quotes && String.eqb char1 (Py.chr Py.tab)
          then String Py.backslash "t" else char1 in
        format_loop rest inside_quotes last_char (result ++ [char2])
  end.

Definition _format_json_str (jstr : string) : string :=
  Py.join (format_loop jstr false " "%char []).

(** ** [json.loads]

    The decoder of the Python standard library, as far as the class uses
    it: [json.loads(s)] for a [str] [s], with the default (strict) options.
    It returns the decoded value or raises [JSONDecodeError]; it raises
    [RecursionError] when the text nests more containers than the
    interpreter lets it enter, and [ValueError] when an integer has more
    digits than [int] converts.

    Strings are decoded to sequences of code points, because an escape
    [\uXXXX] denotes any code point of the Basic Multilingual Plane and a
    surrogate pair any code point above it. A number with a fraction or an
    exponent becomes a Python [float]; floating point is not modelled, and
    such a value is kept as its lexeme. *)

(** The limits of the interpreter in force where the agent calls
    [json.loads]. [recursion_budget] is the number of containers, one
    inside the other, the decoder can enter: the recursion limit
    ([sys.getrecursionlimit()], 1000 by default) less the depth of the call
    stack. The stack is taken to have room for the calls the source itself
    makes and for one container; how deep a text nests is up to the
    sender. [int_max_str_digits] is [sys.get_int_max_str_digits()]: 4300 by
    default, 0 for no limit (also the interpreters that have none). *)
Class Limits := {
  recursion_budget : nat;
  recursion_budget_pos : (0 < recursion_budget)%nat;
  int_max_str_digits : nat;
}.

Module Json.

Inductive value :=
| JNull
| JBool (b : bool)
| JInt (z : Z)
| JFloat (lexeme : string)
| JStr (s : list N)
| JArr (items : list value)
| JObj (pairs : list (list N * value)).

(** The code points of a string of the source. *)
Definition codes (s : string) : list N :=
  map N_of_ascii (String.list_ascii_of_string s).

(** [d[k] = v] on a dict kept in insertion order. *)
Fixpoint dict_set {V} (d : list (list N * V)) (k : list N) (v : V)
    : list (list N * V) :=
  match d with
  | [] => [(k, v)]
  | (k', v') :: d' =>
      if decide (k' = k) then (k', v) :: d' else (k', v') :: dict_set d' k v
  end.

(** [d.update(other)], also [dict(pairs)] from the empty dict. *)
Definition dict_update {V} (d other : list (list N * V)) : list (list N * V) :=
  fold_left (fun d kv => dict_set d (fst kv) (snd kv)) other d.

(** The outcome of a scanning function: a value and the rest of the
    input; a syntax error; the fuel of the definition exhausted (which
    does not happen, lemma [loads_never_starves]); a container, opened
    by [opening], that the decoder could not enter ([RecursionError]); an
    integer of [digits] digits that [int] refused ([ValueError]). *)
Inductive scan (A : Type) :=
| Done (a : A) (rest : string)
| Fail
| Starved
| Deep (opening : ascii)
| Long (digits : nat).
Arguments Done {A} a rest.
Arguments Fail {A}.
Arguments Starved {A}.
Arguments Deep {A} opening.
Arguments Long {A} digits.

Definition is_ws (c : ascii) : bool :=
  Ascii.eqb c " " || Ascii.eqb c Py.tab || Ascii.eqb c Py.newline
  || Ascii.eqb c "013".

Fixpoint skip_ws (s : string) : string :=
  match s with
  | String c r => if is_ws c then skip_ws r else s
  | EmptyString => EmptyString
  end.

Definition is_digit (c : ascii) : bool :=
  let n := N_of_ascii c in ((48 <=? n) && (n <=? 57))%N.

Definition hex_digit (c : ascii) : option N :=
  let n := N_of_ascii c in
  if ((48 <=? n) && (n <=? 57))%N then Some (n - 48)%N
  else if ((97 <=? n) && (n <=? 102))%N then Some (n - 87)%N
  else if ((65 <=? n) && (n <=? 70))%N then Some (n - 55)%N
  else None.

Definition hex4 (a b c d : ascii) : option N :=
  match hex_digit a, hex_digit b, hex_digit c, hex_digit d with
  | Some a, Some b, Some c, Some d => Some (((a * 16 + b) * 16 + c) * 16 + d)%N
  | _, _, _, _ => None
  end.

(** The one-character escapes of [json.decoder.BACKSLASH]. *)
Definition escape_char (e : ascii) : option N :=
  if Ascii.eqb e Py.dquote then Some 34%N
  else if Ascii.eqb e Py.backslash then Some 92%N
  else if Ascii.eqb e "/" then Some 47%N
  else if Ascii.eqb e "b" then Some 8%N
  else if Ascii.eqb e "f" then Some 12%N
  else if Ascii.eqb e "n" then Some 10%N
  else if Ascii.eqb e "r" then Some 13%N
  else if Ascii.eqb e "t" then Some 9%N
  else None.

Definition is_high_surrogate (u : N) : bool := ((55296 <=? u) && (u <=? 56319))%N.
Definition is_low_surrogate (u : N) : bool := ((56320 <=? u) && (u <=? 57343))%N.

Definition cons_code (c : N) (r : option (list N * string))
    : option (list N * string) :=
  match r with
  | Some (cs, rest) => Some (c :: cs, rest)
  | None => None
  end.

(** [scanstring]: the input starts just after the opening quote. A control
    character (below 0x20) inside the literal is refused (strict mode). *)
Fixpoint scanstring (s : string) : option (list N * string) :=
  match s with
  | EmptyString => None
  | String c r =>
      if Ascii.eqb c Py.dquote then Some ([], r)
      else if Ascii.eqb c Py.backslash then
        match r with
        | EmptyString => None
        | String e r1 =>
            if Ascii.eqb e "u" then
              match r1 with
              | String h1 (String h2 (String h3 (String h4 r2))) =>
                  match hex4 h1 h2 h3 h4 with
                  | None => None
                  | Some uni =>
                      match r2 with
                      | String b2 (String u2 r3) =>
                          if is_high_surrogate uni && Ascii.eqb b2 Py.backslash
                             && Ascii.eqb u2 "u"
                          then
                            match r3 with
                            | String l1 (String l2 (String l3 (String l4 r4))) =>
                                match hex4 l1 l2 l3 l4 with
                                | None => None
                                | Some uni2 =>
                                    if is_low_surrogate uni2
                                    then cons_code
                                           (65536 + N.lor (N.shiftl (uni - 55296) 10)
                                                          (uni2 - 56320))%N
                                           (scanstring r4)
                                    else cons_code uni (scanstring r2)
                                end
                            | _ => None
                            end
                          else cons_code uni (scanstring r2)
                      | _ => cons_code uni (scanstring r2)
                      end
                  end
              | _ => None
              end
            else
              match escape_char e with
              | Some ch => cons_code ch (scanstring r1)
              | None => None
              end
        end
      else if (N_of_ascii c <? 32)%N then None
      else cons_code (N_of_ascii c) (scanstring r)
  end.

(** The longest prefix of decimal digits, and the rest. *)
Fixpoint span_digits (s : string) : string * string :=
  match s with
  | String c r =>
      if is_digit c then let '(ds, rest) := span_digits r in (String c ds, rest)
      else (EmptyString, s)
  | EmptyString => (EmptyString, EmptyString)
  end.

Definition digits_to_Z (ds : string) : Z :=
  fold_left (fun acc c => 10 * acc + (Z.of_N (N_of_ascii c) - 48))
            (String.list_ascii_of_string ds) 0.

(** The optional fraction of a number: a point and at least one digit. *)
Definition scan_frac (s : string) : string * string :=
  match s with
  | String p r1 =>
      if Ascii.eqb p "." then
        match span_digits r1 with
        | (EmptyString, _) => (EmptyString, s)
        | (ds, r2) => (String p ds, r2)
        end
      else (EmptyString, s)
  | EmptyString => (EmptyString, s)
  end.

(** The optional exponent of a number: [e] or [E], an optional sign and at
    least one digit. *)
Definition scan_exp (s : string) : string * string :=
  match s with
  | String e r1 =>
      if Ascii.eqb e "e" || Ascii.eqb e "E" then
        let '(sign, r2) :=
          match r1 with
          | String g r2 =>
              if Ascii.eqb g "+" || Ascii.eqb g "-" then (Py.chr g, r2)
              else (EmptyString, r1)
          | EmptyString => (EmptyString, r1)
          end in
        match span_digits r2 with
        | (EmptyString, _) => (EmptyString, s)
        | (ds, r3) => (String e (sign +:+ ds), r3)
        end
      else (EmptyString, s)
  | EmptyString => (EmptyString, s)
  end.

(** Whether [int] refuses a decimal string of [digits] digits: the limit
    is looked at above 640 digits only, and 0 switches it off. *)
Definition over_limit (max_digits digits : nat) : bool :=
  ((640 <? digits) && (0 <? max_digits) && (max_digits <? digits))%nat.

(** [NUMBER_RE]: an optional minus sign, then a zero or a non-zero digit
    followed by digits; then the optional fraction; then the optional
    exponent. With a fraction or an exponent the number is a [float],
    otherwise an [int], which [int] converts unless it has too many
    digits. [Fail] stands for no match. *)
Definition match_number (max_digits : nat) (s : string) : scan value :=
  let '(neg, s1) :=
    match s with
    | String c r => if Ascii.eqb c "-" then (true, r) else (false, s)
    | EmptyString => (false, s)
    end in
  match s1 with
  | EmptyString => Fail
  | String c r =>
      if negb (is_digit c) then Fail else
      let '(int_digits, rest) :=
        if Ascii.eqb c "0" then (Py.chr c, r) else span_digits s1 in
      let '(frac, rest) := scan_frac rest in
      let '(exp, rest) := scan_exp rest in
      let sign := if neg then "-" else EmptyString in
      if Py.truthy frac || Py.truthy exp
      then Done (JFloat (sign +:+ int_digits +:+ frac +:+ exp)) rest
      else if over_limit max_digits (String.length int_digits)
      then Long (String.length int_digits)
      else Done (JInt (if neg then - digits_to_Z int_digits
                       else digits_to_Z int_digits)) rest
  end.

(** [s] without its prefix [p], when it starts with [p]. *)
Fixpoint after (p s : string) : option string :=
  match p with
  | EmptyString => Some s
  | String a p' =>
      match s with
      | String b s' => if Ascii.eqb a b then after p' s' else None
      | EmptyString => None
      end
  end.

(** The literals and numbers of [scan_once]. *)
Definition scan_atom (max_digits : nat) (s : string) : scan value :=
  match after "null" s with Some r => Done JNull r | None =>
  match after "true" s with Some r => Done (JBool true) r | None =>
  match after "false" s with Some r => Done (JBool false) r | None =>
  match match_number max_digits s with
  | Done v r => Done v r
  | Long digits => Long digits
  | _ =>
  match after "NaN" s with Some r => Done (JFloat "NaN") r | None =>
  match after "Infinity" s with Some r => Done (JFloat "Infinity") r | None =>
  match after "-Infinity" s with Some r => Done (JFloat "-Infinity") r | None =>
  Fail end end end end end end end.

(** [scan_once], with [JSONObject] ([members]: the input starts just
    after the opening quote of a key) and [JSONArray] ([elements]: the
    input starts at an element). [depth] is the number of containers the
    decoder can still enter: the scanner asks the interpreter before it
    looks inside an object or an array, an empty one included. *)
Fixpoint scan_once (fuel depth max_digits : nat) (s : string) : scan value :=
  match fuel with
  | O => Starved
  | S fuel =>
      match s with
      | EmptyString => Fail
      | String c r =>
          if Ascii.eqb c Py.dquote then
            match scanstring r with
            | Some (str, rest) => Done (JStr str) rest
            | None => Fail
            end
          else if Ascii.eqb c "{" then
            match depth with
            | O => Deep c
            | S depth =>
                match skip_ws r with
                | String c1 r1 =>
                    if Ascii.eqb c1 "}" then Done (JObj []) r1
                    else if Ascii.eqb c1 Py.dquote
                    then members fuel depth max_digits r1 []
                    else Fail
                | EmptyString => Fail
                end
            end
          else if Ascii.eqb c "[" then
            match depth with
            | O => Deep c
            | S depth =>
                match skip_ws r with
                | String c1 r1 =>
                    if Ascii.eqb c1 "]" then Done (JArr []) r1
                    else elements fuel depth max_digits (String c1 r1) []
                | EmptyString => Fail
                end
            end
          else scan_atom max_digits s
      end
  end
with members (fuel depth max_digits : nat) (s : string)
    (pairs : list (list N * value)) : scan value :=
  match fuel with
  | O => Starved
  | S fuel =>
      match scanstring s with
      | None => Fail
      | Some (key, r) =>
          match skip_ws r with
          | String c1 r1 =>
              if negb (Ascii.eqb c1 ":") then Fail else
              match scan_once fuel depth max_digits (skip_ws r1) with
              | Done v r2 =>
                  let pairs := pairs ++ [(key, v)] in
                  match skip_ws r2 with
                  | String c3 r3 =>
                      if Ascii.eqb c3 "}"
                      then Done (JObj (dict_update [] pairs)) r3
                      else if Ascii.eqb c3 "," then
                        match skip_ws r3 with
                        | String c4 r4 =>
                            if Ascii.eqb c4 Py.dquote
                            then members fuel depth max_digits r4 pairs
                            else Fail
                        | EmptyString => Fail
                        end
                      else Fail
                  | EmptyString => Fail
                  end
              | Fail => Fail
              | Starved => Starved
              | Deep opening => Deep opening
              | Long digits => Long digits
              end
          | EmptyString => Fail
          end
      end
  end
with elements (fuel depth max_digits : nat) (s : string) (values : list value)
    : scan value :=
  match fuel with
  | O => Starved
  | S fuel =>
      match scan_once fuel depth max_digits s with
      | Done v r =>
          let values := values ++ [v] in
          match skip_ws r with
          | String c1 r1 =>
              if Ascii.eqb c1 "]" then Done (JArr values) r1
              else if Ascii.eqb c1 ","
              then elements fuel depth max_digits (skip_ws r1) values
              else Fail
          | EmptyString => Fail
          end
      | Fail => Fail
      | Starved => Starved
      | Deep opening => Deep opening
      | Long digits => Long digits
      end
  end.

Inductive loads_result :=
| Value (v : value)
| JSONDecodeError
| RecursionError (opening : ascii)
| ValueError (digits : nat).

(** [JSONDecoder.decode]: white space, one value, white space, end. The
    fuel is above twice the length of the input, which is enough for
    every input (lemma [loads_never_starves] below). *)
Definition loads `{Limits} (s : string) : loads_result :=
  match scan_once (S (2 * String.length s)) recursion_budget int_max_str_digits
                  (skip_ws s) with
  | Done v rest =>
      match skip_ws rest with
      | EmptyString => Value v
      | String _ _ => JSONDecodeError
      end
  | Fail | Starved => JSONDecodeError
  | Deep opening => RecursionError opening
  | Long digits => ValueError digits
  end.

End Json.

(** ** Exceptions, external collaborators and the agent's state *)

(** A Python exception: its class and [str(e)]. *)
Record exn := Exception { exn_class : string; exn_message : string }.

Inductive result (A : Type) :=
| Return (a : A)
| Raise (e : exn).
Arguments Return {A} a.
Arguments Raise {A} e.

(** The value of the field [_use_docker]: the constructor argument
    [use_docker] (a [bool]) at first, and whatever [execute_code] returned
    as its third component once a block has been executed. *)
Inductive docker (image : Type) :=
| DBool (b : bool)
| DImage (i : image).
Arguments DBool {image} b.
Arguments DImage {image} i.

(** The arguments of one call of [execute_code]. [rq_filename] is the
    keyword [filename] ([None] when it is passed as [None] or left out),
    [rq_lang] the keyword [lang] ([None] when the call leaves it out). *)
Record exec_request (image : Type) := ExecRequest {
  rq_code : string;
  rq_work_dir : option string;
  rq_filename : option string;
  rq_use_docker : docker image;
  rq_lang : option string;
}.
Arguments ExecRequest {image}.
Arguments rq_code {image}.
Arguments rq_work_dir {image}.
Arguments rq_filename {image}.
Arguments rq_use_docker {image}.
Arguments rq_lang {image}.

(** What [execute_code] returns: [(exitcode, logs, image)]. *)
Record exec_response (image : Type) := ExecResponse {
  rs_exitcode : Z;
  rs_logs : list Byte.byte;
  rs_image : image;
}.
Arguments ExecResponse {image}.
Arguments rs_exitcode {image}.
Arguments rs_logs {image}.
Arguments rs_image {image}.

(** The exceptions the interpreter and the library raise on the source's
    behalf whose text is theirs to word: it depends on the data and on the
    version of the interpreter. *)
Inductive fault :=
| UndecodableBytes (logs : list Byte.byte)
| UnboundLocal (name : string)
| AttributeNameNone
| RecursionDepth (opening : ascii)
| IntDigits (digits : nat).

(** The collaborators the class imports or inherits, which are not part of
    the file: [flaml.autogen.code_utils] ([UNKNOWN], [extract_code],
    [infer_lang], [execute_code]), the builtins [input], [str] and
    [bytes.decode], and the objects a registered function returns.
    [World] is the state of everything outside the agent (the console, the
    file system, the containers, the registered objects). [limits] are
    those of [json.loads], and [describe] is [str(e)] for an exception
    worded by the interpreter. *)
Class Externals := {
  limits :: Limits;
  describe : fault -> string;
  World : Type;
  image : Type;
  pyvalue : Type;
  py_str : pyvalue -> string;
  UNKNOWN : string;
  extract_code : string -> list (string * string);
  infer_lang : string -> string;
  execute_code : exec_request image -> World -> exec_response image * World;
  decode_utf8 : list Byte.byte -> option string;
  input : string -> World -> string * World;
}.

Section UserProxyAgent.

Context `{Ext : Externals}.

(** *** Messages *)

(** The value at key ["function_call"]: a dict with the keys ["name"]
    and ["arguments"], either of which may be missing. *)
Record func_call := FuncCall {
  fc_name : option string;
  fc_arguments : option string;
}.

(** A message dict; [None] is a missing key. *)
Record msg := Msg {
  msg_content : option string;
  msg_role : option string;
  msg_name : option string;
  msg_function_call : option func_call;
}.

(** The argument of [receive]: [Union[Dict, str]]. *)
Inductive message :=
| Text (s : string)
| Dict (m : msg).

(** The dict [_execute_function] returns next to the success flag. *)
Record func_return := FuncReturn {
  fr_name : string;
  fr_role : string;
  fr_content : string;
}.

(** What the agent passes to [_send]. *)
Inductive outbound :=
| OutText (s : string)
| OutFunction (r : func_return).

(** *** The function registry *)

(** A keyword argument: a value decoded from JSON, or an object bound in
    the registry entry under ["args"]. *)
Inductive arg :=
| AJson (v : Json.value)
| AObj (v : pyvalue).

Definition kwargs := list (list N * arg).

(** Calling a Python object with keyword arguments: it returns or raises,
    and may change the world. An object that is not callable raises
    [TypeError]. *)
Definition callable := kwargs -> World -> result pyvalue * World.

(** The object at key ["class"]: its attributes ([None]: the lookup
    raises [AttributeError]) and what calling the object itself does. *)
Record pyobject := PyObject {
  obj_getattr : string -> option callable;
  obj_call : callable;
}.

(** An entry of [function_map]; [None] is a missing key. *)
Record func_entry := FuncEntry {
  fe_class : option pyobject;
  fe_function : option callable;
  fe_func_name : option string;
  fe_args : option kwargs;
}.

(** *** The fields of the agent *)

Record agent := Agent {
  _work_dir : option string;
  _human_input_mode : string;
  _is_termination_msg : msg -> bool;
  _max_consecutive_auto_reply : Z;
  _consecutive_auto_reply_counter : gmap string Z;
  _use_docker : docker image;
  _function_map : gmap string func_entry;
}.

Definition set_counter (a : agent) (c : gmap string Z) : agent :=
  Agent (_work_dir a) (_human_input_mode a) (_is_termination_msg a)
        (_max_consecutive_auto_reply a) c (_use_docker a) (_function_map a).

Definition set_use_docker (a : agent) (d : docker image) : agent :=
  Agent (_work_dir a) (_human_input_mode a) (_is_termination_msg a)
        (_max_consecutive_auto_reply a) (_consecutive_auto_reply_counter a)
        d (_function_map a).

(** The default of the constructor argument [is_termination_msg], on a
    message dict. *)
Definition default_is_termination_msg (x : msg) : bool :=
  match msg_content x with
  | Some c => String.eqb c "TERMINATE"
  | None => false
  end.

(** *** Observable calls *)

Inductive event :=
| EvReceived (m : msg) (sender : string)
| EvInput (prompt reply : string)
| EvPrint (text : string)
| EvExecuteCode (request : exec_request image) (response : exec_response image)
| EvSend (m : outbound) (recipient : string).

Record state := State {
  self : agent;
  world : World;
  trace : list event;
}.

(** *** The monad of the methods: state and exceptions *)

Definition M (A : Type) := state -> result A * state.

Definition ret {A} (a : A) : M A := fun st => (Return a, st).

Definition raise {A} (e : exn) : M A := fun st => (Raise e, st).

Definition bind {A B} (m : M A) (k : A -> M B) : M B :=
  fun st =>
    match m st with
    | (Return a, st') => k a st'
    | (Raise e, st') => (Raise e, st')
    end.

(** [try: body / except <classes> as e: handler e]. *)
Definition try_except {A} (body : M A) (handles : exn -> bool)
    (handler : exn -> M A) : M A :=
  fun st =>
    match body st with
    | (Return a, st') => (Return a, st')
    | (Raise e, st') => if handles e then handler e st' else (Raise e, st')
    end.

Definition get_self : M agent := fun st => (Return (self st), st).

Definition put_self (a : agent) : M unit :=
  fun st => (Return tt, State a (world st) (trace st)).

Definition emit (e : event) : M unit :=
  fun st => (Return tt, State (self st) (world st) (trace st ++ [e])).

End UserProxyAgent.

Declare Scope py_scope.
Delimit Scope py_scope with py.
Notation "x <- m ;; k" := (bind m (fun x => k))
  (at level 100, m at next level, right associativity) : py_scope.
Notation "m ;; k" := (bind m (fun _ => k))
  (at level 100, right associativity) : py_scope.

Local Open Scope py_scope.

(** ** The methods of [UserProxyAgent] *)

Section Methods.

Context `{Ext : Externals}.

(** *** Calls to the collaborators *)

(** [input(prompt)]. *)
Definition call_input (prompt : string) : M string :=
  fun st =>
    let '(reply, w) := input prompt (world st) in
    (Return reply, State (self st) w (trace st ++ [EvInput prompt reply])).

(** [print(text, flush=True)]. *)
Definition print (text : string) : M unit := emit (EvPrint text).

(** [super().receive(message, sender)]: the bookkeeping of the base
    class [Agent]. *)
Definition super_receive (m : msg) (sender : string) : M unit :=
  emit (EvReceived m sender).

(** [self._send(message, recipient)], inherited from [Agent]. *)
Definition _send (m : outbound) (recipient : string) : M unit :=
  emit (EvSend m recipient).

(** [execute_code(...)] of [flaml.autogen.code_utils]. *)
Definition call_execute_code (rq : exec_request image)
    : M (exec_response image) :=
  fun st =>
    let '(rs, w) := execute_code rq (world st) in
    (Return rs, State (self st) w (trace st ++ [EvExecuteCode rq rs])).

(** [logs.decode("utf-8")]. *)
Definition decode (logs : list Byte.byte) : M string :=
  match decode_utf8 logs with
  | Some text => ret text
  | None =>
      raise (Exception "UnicodeDecodeError" (describe (UndecodableBytes logs)))
  end.

(** The call [func] applied to the unpacked keyword arguments. *)
Definition call (func : callable) (arguments : kwargs) : M pyvalue :=
  fun st =>
    let '(r, w) := func arguments (world st) in
    (r, State (self st) w (trace st)).

(** *** [_execute_code] *)

Definition shell_family : list string := ["bash"; "shell"; "sh"].

(** The filename the ["python"] branch passes to [execute_code]. *)
Definition directive_filename (code : string) : option string :=
  if Py.startswith code "# filename: "
  then Some (Py.strip (Py.slice code 11 (Py.find code (Py.chr Py.newline))))
  else None.

(** One iteration of the loop up to and including
    [self._use_docker = image]; it yields [(exitcode, logs)]. The last
    branch assigns a tuple of two values to three targets, which raises
    [ValueError] before anything is bound. *)
Definition execute_block (code_block : string * string) : M (Z * string) :=
  let '(lang, code) := code_block in
  let lang := if negb (Py.truthy lang) then infer_lang code else lang in
  a <- get_self ;;
  r <- (if Py.in_list lang shell_family then
          rs <- call_execute_code
                  (ExecRequest code (_work_dir a) None (_use_docker a) (Some lang)) ;;
          logs <- decode (rs_logs rs) ;;
          ret (rs_exitcode rs, logs, rs_image rs)
        else if String.eqb lang "python" then
          let filename := directive_filename code in
          rs <- call_execute_code
                  (ExecRequest code (_work_dir a) filename (_use_docker a) None) ;;
          logs <- decode (rs_logs rs) ;;
          ret (rs_exitcode rs, logs, rs_image rs)
        else
          raise (Exception "ValueError"
                   "not enough values to unpack (expected 3, got 2)")) ;;
  let '(exitcode, logs, image) := r in
  a <- get_self ;;
  put_self (set_use_docker a (DImage image)) ;;
  ret (exitcode, logs).

(** The [for] loop. [exitcode] is [None] while the variable is unbound;
    reading it after a loop over no block raises [UnboundLocalError]. *)
Fixpoint execute_code_loop (code_blocks : list (string * string))
    (exitcode : option Z) (logs_all : string) : M (Z * string) :=
  match code_blocks with
  | [] =>
      match exitcode with
      | Some exitcode => ret (exitcode, logs_all)
      | None =>
          raise (Exception "UnboundLocalError" (describe (UnboundLocal "exitcode")))
      end
  | code_block :: rest =>
      r <- execute_block code_block ;;
      let '(exitcode, logs) := r in
      let logs_all := logs_all +:+ Py.chr Py.newline +:+ logs in
      if negb (exitcode =? 0) then ret (exitcode, logs_all)
      else execute_code_loop rest (Some exitcode) logs_all
  end.

Definition _execute_code (code_blocks : list (string * string))
    : M (Z * string) :=
  execute_code_loop code_blocks None EmptyString.

(** *** [_extract_args] *)

(** [json.loads(s)]. [RecursionError] and [ValueError] are not
    subclasses of [JSONDecodeError] (which is one of [ValueError]). *)
Definition json_loads (s : string) : M Json.value :=
  match Json.loads s with
  | Json.Value v => ret v
  | Json.JSONDecodeError =>
      raise (Exception "JSONDecodeError" "Expecting value")
  | Json.RecursionError opening =>
      raise (Exception "RecursionError" (describe (RecursionDepth opening)))
  | Json.ValueError digits =>
      raise (Exception "ValueError" (describe (IntDigits digits)))
  end.

Definition _extract_args (input_string : string) : M Json.value :=
  let input_string := _format_json_str input_string in
  try_except
    (args <- json_loads input_string ;; ret args)
    (fun e => String.eqb (exn_class e) "JSONDecodeError")
    (fun _ => ret (Json.JObj [])).

(** *** [_execute_function] *)

(** The name of the Python type of a decoded value. *)
Definition type_name (v : Json.value) : string :=
  match v with
  | Json.JNull => "NoneType"
  | Json.JBool _ => "bool"
  | Json.JInt _ => "int"
  | Json.JFloat _ => "float"
  | Json.JStr _ => "str"
  | Json.JArr _ => "list"
  | Json.JObj _ => "dict"
  end.

(** [arguments.update(other)]: only a dict has the method. *)
Definition update (arguments : Json.value) (other : kwargs) : M kwargs :=
  match arguments with
  | Json.JObj pairs =>
      ret (Json.dict_update (map (fun kv => (fst kv, AJson (snd kv))) pairs) other)
  | _ =>
      raise (Exception "AttributeError"
               ("'" +:+ type_name arguments
                +:+ "' object has no attribute 'update'"))
  end.

(** The conditional expression that selects the callable:
    [getattr(func_dict["class"], func_dict.get("func_name", None),
    func_dict["class"])] when ["class"] is a key, [func_dict["function"]]
    otherwise. [getattr] with the name [None] raises [TypeError]; its
    default covers a missing attribute only. *)
Definition resolve (func_dict : func_entry) : M callable :=
  match fe_class func_dict with
  | Some obj =>
      match fe_func_name func_dict with
      | Some func_name =>
          match obj_getattr obj func_name with
          | Some f => ret f
          | None => ret (obj_call obj)
          end
      | None => raise (Exception "TypeError" (describe AttributeNameNone))
      end
  | None =>
      match fe_function func_dict with
      | Some f => ret f
      | None => raise (Exception "KeyError" "'function'")
      end
  end.

(** The variable [content]: the object the function returned, or a
    message built by the method. *)
Inductive content :=
| Returned (v : pyvalue)
| Message (s : string).

(** [str(content)]. *)
Definition str (c : content) : string :=
  match c with
  | Returned v => py_str v
  | Message s => s
  end.

Definition _execute_function (func_call : func_call)
    : M (bool * func_return) :=
  let func_name := default EmptyString (fc_name func_call) in
  a <- get_self ;;
  let func_dict := _function_map a !! func_name in
  let is_exec_success := false in
  r <- match func_dict with
       | Some func_dict =>
           arguments <- _extract_args (default EmptyString (fc_arguments func_call)) ;;
           arguments <- update arguments (default [] (fe_args func_dict)) ;;
           try_except
             (func <- resolve func_dict ;;
              content <- call func arguments ;;
              ret (true, Returned content))
             (fun _ => true)
             (fun e => ret (is_exec_success, Message ("Error: " +:+ exn_message e)))
       | None =>
           ret (is_exec_success,
                Message ("Error: Function " +:+ func_name +:+ " not found."))
       end ;;
  let '(is_exec_success, content) := r in
  ret (is_exec_success, FuncReturn func_name "function" (str content)).

(** *** [auto_reply] *)

Definition auto_reply (message : msg) (sender : string)
    (default_reply : string) : M unit :=
  match msg_function_call message with
  | Some function_call =>
      r <- _execute_function function_call ;;
      let '(is_exec_success, func_return) := r in
      _send (OutFunction func_return) sender
  | None =>
      match msg_content message with
      | None => raise (Exception "KeyError" "'content'")
      | Some text =>
          let code_blocks := extract_code text in
          if (length code_blocks =? 1)%nat
             && match code_blocks with
                | (lang, _) :: _ => String.eqb lang UNKNOWN
                | [] => false
                end
          then _send (OutText default_reply) sender
          else
            r <- _execute_code code_blocks ;;
            let '(exitcode, logs) := r in
            let exitcode2str :=
              if exitcode =? 0 then "execution succeeded" else "execution failed" in
            _send (OutText ("exitcode: " +:+ pretty exitcode +:+ " (" +:+ exitcode2str
                            +:+ ")" +:+ Py.chr Py.newline +:+ "Code output: " +:+ logs))
                  sender
      end
  end.

(** *** [receive] *)

(** [self._consecutive_auto_reply_counter[key]] on the [defaultdict(int)]:
    a missing key is inserted with the value 0. *)
Definition counter_getitem (key : string) : M Z :=
  a <- get_self ;;
  match _consecutive_auto_reply_counter a !! key with
  | Some n => ret n
  | None =>
      put_self (set_counter a (<[key := 0]> (_consecutive_auto_reply_counter a))) ;;
      ret 0
  end.

(** [self._consecutive_auto_reply_counter[key] = n]. *)
Definition counter_setitem (key : string) (n : Z) : M unit :=
  a <- get_self ;;
  put_self (set_counter a (<[key := n]> (_consecutive_auto_reply_counter a))).

Definition prompt_always : string :=
  "Provide feedback to the sender. Press enter to skip and use auto-reply, or type 'exit' to end the conversation: ".

Definition prompt_terminate : string :=
  "Please give feedback to the sender. (Press enter or type 'exit' to stop the conversation): ".

(** Lines 259-274: the reply, typed by the human or chosen by the mode. *)
Definition get_reply (message : msg) (sender : string) : M string :=
  let reply := EmptyString in
  a <- get_self ;;
  if String.eqb (_human_input_mode a) "ALWAYS" then call_input prompt_always
  else
    n <- counter_getitem sender ;;
    if (_max_consecutive_auto_reply a <=? n) || _is_termination_msg a message then
      if String.eqb (_human_input_mode a) "TERMINATE" then
        reply <- call_input prompt_terminate ;;
        ret (if Py.truthy reply then reply else "exit")
      else ret "exit"
    else ret reply.

(** Lines 275-287: what the agent does with the reply. *)
Definition act_on_reply (message : msg) (sender : string) (reply : string)
    : M unit :=
  a <- get_self ;;
  if String.eqb reply "exit"
     || (_is_termination_msg a message && negb (Py.truthy reply))
  then counter_setitem sender 0
  else if Py.truthy reply then
    counter_setitem sender 0 ;;
    _send (OutText reply) sender
  else
    n <- counter_getitem sender ;;
    counter_setitem sender (n + 1) ;;
    print (Py.chr Py.newline
           +:+ ">>>>>>>> NO HUMAN INPUT RECEIVED. USING AUTO REPLY FOR THE USER...") ;;
    auto_reply message sender reply.

Definition receive (message : message) (sender : string) : M unit :=
  let message :=
    match message with
    | Text s => Msg (Some s) (Some "user") None None
    | Dict m => m
    end in
  super_receive message sender ;;
  reply <- get_reply message sender ;;
  act_on_reply message sender reply.

End Methods.

(** ** A concrete environment

    Test doubles for the collaborators, used to run the methods on concrete
    inputs. The world is the queue of lines the operator will type. *)

Module Demo.

(** [bytes.decode] on logs that are plain ASCII. *)
Fixpoint ascii_decode (bs : list Byte.byte) : option string :=
  match bs with
  | [] => Some EmptyString
  | b :: bs' =>
      if (Byte.to_N b <? 128)%N then
        match ascii_decode bs' with
        | Some s => Some (String (ascii_of_byte b) s)
        | None => None
        end
      else None
  end.

Definition bytes (s : string) : list Byte.byte := String.list_byte_of_string s.

(** An execution service that fails (exit code 2) on the command
    [false], succeeds otherwise, and always answers with the same image. *)
Definition service (rq : exec_request (option string)) (w : list string)
    : exec_response (option string) * list string :=
  if String.eqb (rq_code rq) "false"
  then (ExecResponse 2 (bytes "failed") (Some "python:3-slim"), w)
  else (ExecResponse 0 (bytes "ok") (Some "python:3-slim"), w).

(** An extractor that knows one fence: a text starting with [sh:] is one
    shell block, any other text holds no code. *)
Definition extractor (text : string) : list (string * string) :=
  if String.prefix "sh:" text
  then [("sh", String.substring 3 (String.length text - 3) text)]
  else [("unknown", text)].

Definition read_line (prompt : string) (w : list string) : string * list string :=
  match w with
  | [] => (EmptyString, [])
  | line :: w' => (line, w')
  end.

(** The limits of an interpreter with its default settings, called from
    a stack twenty frames deep. *)
Definition cpython_limits : Limits := {|
  recursion_budget := 980;
  recursion_budget_pos := Nat.lt_0_succ 979;
  int_max_str_digits := 4300;
|}.

Definition hex_char (n : N) : ascii :=
  if (n <? 10)%N then ascii_of_N (48 + n) else ascii_of_N (87 + n).

Definition hex_byte (b : Byte.byte) : string :=
  String (hex_char (Byte.to_N b / 16)) (String (hex_char (Byte.to_N b mod 16)) EmptyString).

(** The first byte that is not ASCII, and its position. *)
Fixpoint first_non_ascii (bs : list Byte.byte) (position : Z)
    : option (Byte.byte * Z) :=
  match bs with
  | [] => None
  | b :: bs' =>
      if (Byte.to_N b <? 128)%N then first_non_ascii bs' (position + 1)
      else Some (b, position)
  end.

(** The texts of one CPython release. For undecodable bytes it is the
    text for a byte that cannot start a character (0x80 to 0xbf, 0xf8 to
    0xff). *)
Definition cpython_describe (f : fault) : string :=
  match f with
  | UndecodableBytes logs =>
      match first_non_ascii logs 0 with
      | Some (b, position) =>
          "'utf-8' codec can't decode byte 0x" +:+ hex_byte b +:+ " in position "
          +:+ pretty position +:+ ": invalid start byte"
      | None => "'utf-8' codec can't decode bytes"
      end
  | UnboundLocal name =>
      "cannot access local variable '" +:+ name
      +:+ "' where it is not associated with a value"
  | AttributeNameNone => "attribute name must be string, not 'NoneType'"
  | RecursionDepth opening =>
      "maximum recursion depth exceeded while decoding a JSON "
      +:+ (if Ascii.eqb opening "{" then "object" else "array")
      +:+ " from a unicode string"
  | IntDigits digits =>
      "Exceeds the limit (4300 digits) for integer string conversion: value has "
      +:+ pretty (Z.of_nat digits)
      +:+ " digits; use sys.set_int_max_str_digits() to increase the limit"
  end.

#[export] Instance ext : Externals := {|
  limits := cpython_limits;
  describe := cpython_describe;
  World := list string;
  image := option string;
  pyvalue := Z;
  py_str := pretty;
  UNKNOWN := "unknown";
  extract_code := extractor;
  infer_lang := fun _ => "python";
  execute_code := service;
  decode_utf8 := ascii_decode;
  input := read_line;
|}.

(** [add_num_func] of the docstring of the class: it adds 10 to the
    keyword argument [num_to_be_added]. *)
Definition add_num_func : callable :=
  fun arguments w =>
    match arguments with
    | [(k, AJson (Json.JInt n))] =>
        if decide (k = Json.codes "num_to_be_added") then (Return (n + 10), w)
        else (Raise (Exception "TypeError" "unexpected keyword argument"), w)
    | _ => (Raise (Exception "TypeError" "unexpected keyword argument"), w)
    end.

Definition registry : gmap string func_entry :=
  {[ "add_num" := FuncEntry None (Some add_num_func) None None ]}.

(** An agent as the constructor builds it, but for the mode, the limit
    and the counters. *)
Definition agent_with (mode : string) (limit : Z) (counters : gmap string Z)
    : agent :=
  Agent None mode default_is_termination_msg limit counters (DBool true) registry.

Definition start (a : agent) (typed : list string) : state := State a typed [].

(** A fresh agent in the mode [ALWAYS]; nobody at the console. *)
Definition idle : state := start (agent_with "ALWAYS" 100 ∅) [].

(** A fresh agent in the mode [NEVER]. *)
Definition never_fresh : state := start (agent_with "NEVER" 100 ∅) [].

(** The mode [NEVER] with the limit 1, after one auto-reply to [bob]. *)
Definition never_at_limit : state :=
  start (agent_with "NEVER" 1 {[ "bob" := 1 ]}) [].

(** The mode [TERMINATE] with the limit 2, after two auto-replies to
    [bob]; the operator will press enter. *)
Definition terminate_at_limit : state :=
  start (agent_with "TERMINATE" 2 {[ "bob" := 2 ]}) [EmptyString].

Definition three_blocks : list (string * string) :=
  [("sh", "ls"); ("sh", "false"); ("sh", "pwd")].

Definition two_blocks : list (string * string) :=
  [("sh", "ls"); ("sh", "pwd")].

(** A callable that adds 10 to [num_to_be_added], sent by the caller or
    bound in the entry. *)
Definition add_ten : callable :=
  fun arguments w =>
    match arguments with
    | [(k, AJson (Json.JInt n))] | [(k, AObj n)] =>
        if decide (k = Json.codes "num_to_be_added") then (Return (n + 10), w)
        else (Raise (Exception "TypeError" "unexpected keyword argument"), w)
    | _ => (Raise (Exception "TypeError" "missing argument"), w)
    end.

(** An object with the method [add], in the manner of the class [AddNum]
    of the docstring; the object itself is not callable. *)
Definition add_num_object : pyobject :=
  PyObject (fun attribute => if String.eqb attribute "add" then Some add_ten else None)
           (fun _ w => (Raise (Exception "TypeError" "'AddNum' object is not callable"), w)).

(** A registry with an entry of each shape. *)
Definition shapes : gmap string func_entry :=
  {[ "method" := FuncEntry (Some add_num_object) None (Some "add") None;
     "bare" := FuncEntry (Some add_num_object) None None None;
     "bound" := FuncEntry None (Some add_ten) None
                          (Some [(Json.codes "num_to_be_added", AObj 7)]) ]}.

(** A registry the constructor refuses: the entry has both keys. *)
Definition both_keys : gmap string func_entry :=
  {[ "add_num" := FuncEntry (Some add_num_object) (Some add_ten) None None ]}.

(** An agent in the mode [ALWAYS] with the registry [shapes]. *)
Definition with_shapes : state :=
  State (Agent None "ALWAYS" default_is_termination_msg 100 ∅ (DBool true) shapes)
        [] [].

(** The mode [ALWAYS]; the operator will type a reply. *)
Definition operator_replies : state :=
  start (agent_with "ALWAYS" 100 ∅) ["looks good"].

(** The mode [ALWAYS]; the operator will type [exit]. *)
Definition operator_exits : state :=
  start (agent_with "ALWAYS" 100 ∅) ["exit"].

(** A message that asks for [add_num] and one with a shell block. *)
Definition call_add_num : msg :=
  Msg None (Some "assistant") None
      (Some (FuncCall (Some "add_num")
                      (Some ("{" +:+ Py.quoted "num_to_be_added" +:+ ": 5}")))).

Definition run_ls : msg := Msg (Some "sh:ls") (Some "assistant") None None.

Definition small_talk : msg := Msg (Some "hello") (Some "assistant") None None.

Definition no_content : msg := Msg None (Some "assistant") None None.

(** The collaborators of [ext], but for an execution service whose log is
    the single byte 0xff, which is not UTF-8. *)
Definition binary_ext : Externals := {|
  limits := cpython_limits;
  describe := cpython_describe;
  World := list string;
  image := option string;
  pyvalue := Z;
  py_str := pretty;
  UNKNOWN := "unknown";
  extract_code := extractor;
  infer_lang := fun _ => "python";
  execute_code := fun rq w => (ExecResponse 0 [Byte.xff] (Some "python:3-slim"), w);
  decode_utf8 := ascii_decode;
  input := read_line;
|}.

(** A fresh agent in the mode [NEVER] over [binary_ext], with no
    function registered. *)
Definition binary_idle : @state binary_ext :=
  @State binary_ext
    (@Agent binary_ext None "NEVER" default_is_termination_msg 100 ∅
            (DBool true) ∅)
    [] [].

End Demo.

(** ** Concrete inputs used in the statements below *)

Module Inputs.

Import Py.

(** The argument string of the docstring of [_format_json_str], with
    literal newlines between the tokens and inside the last value. *)
Definition multiline_arguments : string :=
  "{" +:+ chr newline +:+ quoted "tool" +:+ ": " +:+ quoted "python" +:+ ","
  +:+ chr newline +:+ quoted "query" +:+ ": "
  +:+ quoted ("print(1)" +:+ chr newline +:+ "print(2)") +:+ chr newline +:+ "}".

(** Single-line JSON: a string value that ends in an escaped backslash,
    then a tab between the comma and the next key. *)
Definition windows_path_arguments : string :=
  "{" +:+ quoted "dir" +:+ ": " +:+ quoted ("C:" +:+ chr backslash +:+ chr backslash)
  +:+ "," +:+ chr tab +:+ quoted "n" +:+ ": 1}".

Fixpoint has_char (c : ascii) (s : string) : bool :=
  match s with
  | EmptyString => false
  | String c' r => Ascii.eqb c' c || has_char c r
  end.

(** ["[" * n]: [n] arrays, one inside the other, none of them closed. *)
Fixpoint open_brackets (n : nat) : string :=
  match n with
  | O => EmptyString
  | S n => String "[" (open_brackets n)
  end.

(** ["1" * n]: the integer written with [n] digits 1. *)
Fixpoint ones (n : nat) : string :=
  match n with
  | O => EmptyString
  | S n => String "1" (ones n)
  end.

End Inputs.

(** ** Vocabulary of the statements *)

Section Vocabulary.

Context `{Ext : Externals}.

(** The language of a block once an empty tag has been inferred. *)
Definition effective_lang (code_block : string * string) : string :=
  if negb (Py.truthy (fst code_block)) then infer_lang (snd code_block)
  else fst code_block.

(** A block of the shell family or of the language ["python"]. *)
Definition recognized (code_block : string * string) : bool :=
  Py.in_list (effective_lang code_block) shell_family
  || String.eqb (effective_lang code_block) "python".

(** The arguments [execute_code] gets for a recognized block. *)
Definition request_for (a : agent) (code_block : string * string)
    : exec_request image :=
  if Py.in_list (effective_lang code_block) shell_family
  then ExecRequest (snd code_block) (_work_dir a) None (_use_docker a)
                   (Some (effective_lang code_block))
  else ExecRequest (snd code_block) (_work_dir a)
                   (directive_filename (snd code_block)) (_use_docker a) None.




(** In a sequence of calls of [execute_code], the first gets [d] as
    [use_docker] and each later one the image the call before it
    returned. *)
Fixpoint forwards (d : docker image)
    (calls : list (exec_request image * exec_response image)) : Prop :=
  match calls with
  | [] => True
  | (rq, rs) :: rest =>
      rq_use_docker rq = d /\ forwards (DImage (rs_image rs)) rest
  end.

(** The value of [_use_docker] after the calls, from [d]. *)
Definition stored_after (d : docker image)
    (calls : list (exec_request image * exec_response image)) : docker image :=
  fold_left (fun _ c => DImage (rs_image (snd c))) calls d.

Definition exec_events (calls : list (exec_request image * exec_response image))
    : list event :=
  map (fun c => EvExecuteCode (fst c) (snd c)) calls.

(** Every call of [execute_code] made by [_execute_code] on [code_blocks]
    from [st] gets the value [_use_docker] had in [st]. *)
Definition sandbox_flag_is_kept (st : state) (code_blocks : list (string * string))
    : Prop :=
  forall rq rs,
    In (EvExecuteCode rq rs) (trace (snd (_execute_code code_blocks st))) ->
    rq_use_docker rq = _use_docker (self st).

(** The counter of a sender as the [defaultdict] reads it. *)
Definition counter_of (st : state) (sender : string) : Z :=
  default 0 (_consecutive_auto_reply_counter (self st) !! sender).

(** The state once the counter of [sender] has been read: the
    [defaultdict] has the key. *)
Definition touched (sender : string) (st : state) : state :=
  match _consecutive_auto_reply_counter (self st) !! sender with
  | Some _ => st
  | None =>
      State (set_counter (self st)
               (<[sender := 0]> (_consecutive_auto_reply_counter (self st))))
            (world st) (trace st)
  end.

(** The state with the counter of [sender] set to [n]. *)
Definition with_counter (sender : string) (n : Z) (st : state) : state :=
  State (set_counter (self st)
           (<[sender := n]> (_consecutive_auto_reply_counter (self st))))
        (world st) (trace st).

(** The state with one more event. *)
Definition logged (e : event) (st : state) : state :=
  State (self st) (world st) (trace st ++ [e]).

Definition no_human_input_message : string :=
  Py.chr Py.newline
  +:+ ">>>>>>>> NO HUMAN INPUT RECEIVED. USING AUTO REPLY FOR THE USER...".

(** The message dict [receive] works on. *)
Definition normalize (m : message) : msg :=
  match m with
  | Text s => Msg (Some s) (Some "user") None None
  | Dict m => m
  end.

(** The state after [receive], whether it returned or raised. *)
Definition after_receive (m : message) (sender : string) (st : state) : state :=
  snd (receive m sender st).

(** The state after a sequence of [receive] calls. *)
Definition after_receives (calls : list (message * string)) (st : state)
    : state :=
  fold_left (fun st c => after_receive (fst c) (snd c) st) calls st.

(** The events of one [receive] call. *)
Definition turn_events (m : message) (sender : string) (st : state)
    : list event :=
  drop (length (trace st)) (trace (after_receive m sender st)).

(** The three occasions the specification names for a reset: the human
    typed [exit]; the human typed a non-empty reply, which was sent; the
    message ends the conversation and the human typed nothing. *)
Definition reset_is_named (m : message) (sender : string) (st : state) : Prop :=
  (exists prompt, In (EvInput prompt "exit") (turn_events m sender st))
  \/ (exists prompt reply,
         reply <> EmptyString
         /\ In (EvInput prompt reply) (turn_events m sender st)
         /\ In (EvSend (OutText reply) sender) (turn_events m sender st))
  \/ (_is_termination_msg (self st) (normalize m) = true
       /\ forall prompt reply,
           In (EvInput prompt reply) (turn_events m sender st) ->
           reply = EmptyString).

(** The counter is back at 0 on a named occasion only. *)
Definition resets_only_when_named (m : message) (sender : string) (st : state)
    : Prop :=
  counter_of (after_receive m sender st) sender = 0 -> reset_is_named m sender st.

(** In the mode [TERMINATE], with the counter at the limit, an empty line
    typed at the prompt leads to an auto-reply: the counter grows by one. *)
Definition empty_line_at_limit_auto_replies (m : message) (sender : string)
    (st : state) : Prop :=
  _human_input_mode (self st) = "TERMINATE" ->
  _max_consecutive_auto_reply (self st) <= counter_of st sender ->
  _is_termination_msg (self st) (normalize m) = false ->
  fst (input prompt_terminate (world st)) = EmptyString ->
  counter_of (after_receive m sender st) sender = counter_of st sender + 1.

Definition counters_nonneg (st : state) : Prop :=
  forall sender n,
    _consecutive_auto_reply_counter (self st) !! sender = Some n -> 0 <= n.

End Vocabulary.

(** ** The constructor *)

Section Constructor.

Context `{Ext : Externals}.

(** The class attribute. *)
Definition MAX_CONSECUTIVE_AUTO_REPLY : Z := 100.

(** [key in d] for a key of a registry entry. *)
Definition has_key {A} (o : option A) : bool :=
  match o with
  | Some _ => true
  | None => false
  end.

(** The condition of the [assert] in the loop over [function_map]:
    ["class"] or ["function"] is a key, and not both. *)
Definition entry_is_valid (e : func_entry) : bool :=
  (has_key (fe_class e) || has_key (fe_function e))
  && negb (Bool.eqb (has_key (fe_class e)) (has_key (fe_function e))).

(** [UserProxyAgent.__init__], as far as the fields of this class go:
    [name] and [system_message] go to the base class and [config] is
    stored and not read again. [None] for [max_consecutive_auto_reply] and
    [is_termination_msg] selects the default. The result is the new agent,
    or the [AssertionError] of the loop over [function_map]. *)
Definition __init__ (work_dir : option string) (human_input_mode : string)
    (function_map : gmap string func_entry)
    (max_consecutive_auto_reply : option Z)
    (is_termination_msg : option (msg -> bool)) (use_docker : bool)
    : result agent :=
  let a :=
    Agent work_dir human_input_mode
          (match is_termination_msg with
           | Some p => p
           | None => default_is_termination_msg
           end)
          (match max_consecutive_auto_reply with
           | Some n => n
           | None => MAX_CONSECUTIVE_AUTO_REPLY
           end)
          ∅ (DBool use_docker) function_map in
  if forallb (fun kv => entry_is_valid (snd kv)) (map_to_list function_map)
  then Return a
  else Raise (Exception "AssertionError"
                "only one of 'class' and 'function' can exist in a function config.").

End Constructor.

(** ** Vocabulary of the further statements *)

Section MoreVocabulary.

Context `{Ext : Externals}.

(** [s] without its newlines. *)
Fixpoint without_newlines (s : string) : string :=
  match s with
  | EmptyString => EmptyString
  | String c r =>
      if Ascii.eqb c Py.newline then without_newlines r
      else String c (without_newlines r)
  end.

(** [s] with every newline written as backslash, [n] and every tab as
    backslash, [t]. *)
Fixpoint escaped (s : string) : string :=
  match s with
  | EmptyString => EmptyString
  | String c r =>
      if Ascii.eqb c Py.newline then String Py.backslash (String "n" (escaped r))
      else if Ascii.eqb c Py.tab then String Py.backslash (String "t" (escaped r))
      else String c (escaped r)
  end.

(** [d.get(k)] on a dict kept in insertion order. *)
Fixpoint dict_get {V} (d : list (list N * V)) (k : list N) : option V :=
  match d with
  | [] => None
  | (k', v) :: d' => if decide (k' = k) then Some v else dict_get d' k
  end.

(** The dict [_extract_args] hands to [update], when it is one: the pairs
    of the decoded object, or no pair when [json.loads] raises
    [JSONDecodeError]. *)
Definition parsed_arguments (input_string : string)
    : option (list (list N * Json.value)) :=
  match Json.loads (_format_json_str input_string) with
  | Json.Value (Json.JObj pairs) => Some pairs
  | Json.Value _ => None
  | Json.JSONDecodeError => Some []
  | Json.RecursionError _ | Json.ValueError _ => None
  end.

(** The keyword arguments a registered callable gets: the parsed pairs,
    updated with the arguments bound in the entry. *)
Definition merged_arguments (pairs : list (list N * Json.value))
    (func_dict : func_entry) : kwargs :=
  Json.dict_update (map (fun kv => (fst kv, AJson (snd kv))) pairs)
                   (default [] (fe_args func_dict)).

(** What [_execute_function] returns once the callable [f] has been
    selected and the arguments merged. *)
Definition call_outcome (func_name : string) (f : callable) (arguments : kwargs)
    (st : state) : result (bool * func_return) * state :=
  match f arguments (world st) with
  | (Return v, w) =>
      (Return (true, FuncReturn func_name "function" (py_str v)),
       State (self st) w (trace st))
  | (Raise e, w) =>
      (Return (false, FuncReturn func_name "function" ("Error: " +:+ exn_message e)),
       State (self st) w (trace st))
  end.

(** The text [auto_reply] sends after running code. *)
Definition execution_report (exitcode : Z) (logs : string) : string :=
  "exitcode: " +:+ pretty exitcode +:+ " ("
  +:+ (if exitcode =? 0 then "execution succeeded" else "execution failed")
  +:+ ")" +:+ Py.chr Py.newline +:+ "Code output: " +:+ logs.

Definition is_input (e : event) : bool :=
  match e with EvInput _ _ => true | _ => false end.

Definition is_send (e : event) : bool :=
  match e with EvSend _ _ => true | _ => false end.

Definition is_execution (e : event) : bool :=
  match e with EvExecuteCode _ _ => true | _ => false end.

(** The number of events of a kind. *)
Fixpoint count (kind : event -> bool) (evs : list event) : nat :=
  match evs with
  | [] => 0%nat
  | e :: evs' => ((if kind e then 1 else 0) + count kind evs')%nat
  end.

(** Whether [receive] asks the human, by mode, counter and message. *)
Definition solicits (m : msg) (sender : string) (st : state) : bool :=
  String.eqb (_human_input_mode (self st)) "ALWAYS"
  || (String.eqb (_human_input_mode (self st)) "TERMINATE"
      && ((_max_consecutive_auto_reply (self st) <=? counter_of st sender)
          || _is_termination_msg (self st) m)).

(** The two agents differ at most in the counters and in [_use_docker]. *)
Definition same_configuration (a a' : agent) : Prop :=
  _work_dir a' = _work_dir a
  /\ _human_input_mode a' = _human_input_mode a
  /\ _is_termination_msg a' = _is_termination_msg a
  /\ _max_consecutive_auto_reply a' = _max_consecutive_auto_reply a
  /\ _function_map a' = _function_map a.

End MoreVocabulary.

(** ** Strings *)

Lemma append_cons (c : ascii) (a b : string) :
  String c a +:+ b = String c (a +:+ b).
Proof. reflexivity. Qed.

Lemma append_empty_l (a : string) : EmptyString +:+ a = a.
Proof. reflexivity. Qed.

Lemma append_assoc (a b c : string) : (a +:+ b) +:+ c = a +:+ (b +:+ c).
Proof.
  induction a as [|x a IH]; [reflexivity|].
  rewrite !append_cons, IH. reflexivity.
Qed.

Lemma append_empty_r (a : string) : a +:+ EmptyString = a.
Proof.
  induction a as [|x a IH]; [reflexivity|].
  rewrite append_cons, IH. reflexivity.
Qed.

Lemma startswith_append (p s : string) : Py.startswith (p +:+ s) p = true.
Proof.
  unfold Py.startswith. induction p as [|a p IH].
  { rewrite append_empty_l. destruct s; reflexivity. }
  rewrite append_cons. cbn [String.prefix].
  destruct (ascii_dec a a) as [_|Hne]; [exact IH|contradiction].
Qed.

Lemma join_snoc (parts : list string) (x : string) :
  Py.join (parts ++ [x]) = Py.join parts +:+ x.
Proof.
  induction parts as [|p parts IH]; simpl.
  - apply append_empty_r.
  - rewrite IH, append_assoc. reflexivity.
Qed.

(** ** The decoder has fuel enough *)

Section Fuel.

Import Json.

Local Abbreviation len := String.length.

Lemma skip_ws_length s : (len (skip_ws s) <= len s)%nat.
Proof. induction s as [|c s IH]; simpl; [lia|]. destruct (is_ws c); simpl; lia. Qed.

Lemma cons_code_some c r x rest :
  cons_code c r = Some (x, rest) -> exists x', r = Some (x', rest).
Proof. destruct r as [[x' r']|]; simpl; intros [= <- <-]; eauto. Qed.

Lemma scanstring_shrinks_aux : forall n s x r,
  (len s <= n)%nat -> scanstring s = Some (x, r) -> (len r < len s)%nat.
Proof.
  induction n as [|n IH]; intros s x r Hn H.
  - destruct s; simpl in *; [discriminate|lia].
  - destruct s as [|c s1]; [discriminate|]. simpl in H.
    repeat (case_match; simplify_eq); cbn [String.length] in *; try lia;
      try (apply cons_code_some in H as [x' H]; apply IH in H;
           cbn [String.length] in *; lia).
Qed.

Lemma scanstring_shrinks s x r :
  scanstring s = Some (x, r) -> (len r < len s)%nat.
Proof. apply (scanstring_shrinks_aux (len s)). lia. Qed.

Lemma span_digits_length s : (len (snd (span_digits s)) <= len s)%nat.
Proof.
  induction s as [|c s IH]; simpl; [lia|].
  destruct (is_digit c); [|simpl; lia].
  destruct (span_digits s) as [ds rest]. simpl in *. lia.
Qed.

Lemma span_digits_digit c s :
  is_digit c = true -> (len (snd (span_digits (String c s))) <= len s)%nat.
Proof.
  intros H. simpl. rewrite H.
  pose proof (span_digits_length s). destruct (span_digits s). simpl in *. lia.
Qed.

Lemma scan_frac_length s : (len (snd (scan_frac s)) <= len s)%nat.
Proof.
  unfold scan_frac. destruct s as [|p r1]; [simpl; lia|].
  destruct (Ascii.eqb p "."); [|simpl; lia].
  pose proof (span_digits_length r1).
  destruct (span_digits r1) as [[|d ds] r2]; simpl in *; lia.
Qed.

Lemma scan_exp_length s : (len (snd (scan_exp s)) <= len s)%nat.
Proof.
  unfold scan_exp. destruct s as [|e r1]; [simpl; lia|].
  destruct (_ || _); [|simpl; lia].
  destruct r1 as [|g r2].
  - simpl. lia.
  - destruct (_ || _).
    + pose proof (span_digits_length r2).
      destruct (span_digits r2) as [[|d ds] r3]; simpl in *; lia.
    + pose proof (span_digits_length (String g r2)).
      destruct (span_digits (String g r2)) as [[|d ds] r3]; simpl in *; lia.
Qed.

Lemma match_number_shrinks m s v r :
  match_number m s = Done v r -> (len r < len s)%nat.
Proof.
  unfold match_number.
  set (p := match s with String c r => if Ascii.eqb c "-" then (true, r) else (false, s) | EmptyString => (false, s) end).
  assert (Hp : (len (snd p) <= len s)%nat).
  { subst p. destruct s as [|c r0]; [simpl; lia|]. destruct (Ascii.eqb c "-"); simpl; lia. }
  destruct p as [neg s1]. cbn [snd] in Hp.
  destruct s1 as [|c r0]; [discriminate|].
  destruct (is_digit c) eqn:Hd; [|discriminate]. cbn [negb].
  set (q := if Ascii.eqb c "0" then (Py.chr c, r0) else span_digits (String c r0)).
  assert (Hq : (len (snd q) <= len r0)%nat).
  { subst q. destruct (Ascii.eqb c "0"); [simpl; lia|]. apply span_digits_digit, Hd. }
  destruct q as [int_digits rest]. cbn [snd] in Hq.
  pose proof (scan_frac_length rest) as Hf.
  destruct (scan_frac rest) as [frac rest1]. cbn [snd] in Hf.
  pose proof (scan_exp_length rest1) as He.
  destruct (scan_exp rest1) as [exp rest2]. cbn [snd] in He.
  cbn [String.length] in Hp.
  destruct (_ || _); [intros [= _ <-]; lia|].
  destruct (over_limit _ _); [discriminate|]. intros [= _ <-]. lia.
Qed.

Lemma after_length p : forall s r,
  after p s = Some r -> (len r + len p = len s)%nat.
Proof.
  induction p as [|a p IH]; intros s r; simpl.
  - intros [= <-]. lia.
  - destruct s as [|b s]; [discriminate|].
    destruct (Ascii.eqb a b); [|discriminate].
    intros H. apply IH in H. simpl. lia.
Qed.

Lemma scan_atom_shrinks m s v r :
  scan_atom m s = Done v r -> (len r < len s)%nat.
Proof.
  unfold scan_atom. intros H.
  repeat match type of H with
         | match after ?p s with _ => _ end = _ =>
             let E := fresh "E" in
             destruct (after p s) eqn:E;
             [apply after_length in E; cbn [String.length] in E;
              injection H as _ <-; lia|]
         | match match_number m s with _ => _ end = _ =>
             let E := fresh "E" in
             destruct (match_number m s) as [? ?| | | |] eqn:E;
             [apply match_number_shrinks in E; injection H as _ <-; lia
             | | | |discriminate H]
         end;
    discriminate H.
Qed.

Lemma scan_atom_never_starves m s : scan_atom m s <> Starved.
Proof. unfold scan_atom. repeat case_match; discriminate. Qed.

(** A value, once scanned, leaves less input than there was. *)
Lemma scan_shrinks : forall fuel,
  (forall d m s v r, scan_once fuel d m s = Done v r -> (len r < len s)%nat)
  /\ (forall d m s ps v r, members fuel d m s ps = Done v r -> (len r < len s)%nat)
  /\ (forall d m s vs v r, elements fuel d m s vs = Done v r -> (len r < len s)%nat).
Proof.
  induction fuel as [|fuel (IHs & IHm & IHe)].
  { repeat split; intros; discriminate. }
  repeat split.
  - intros d m s v r H. cbn [scan_once] in H.
    destruct s as [|c s1]; [discriminate|].
    destruct (Ascii.eqb c Py.dquote).
    { destruct (scanstring s1) as [[x rest]|] eqn:E; [|discriminate].
      apply scanstring_shrinks in E. injection H as _ <-. simpl. lia. }
    destruct (Ascii.eqb c "{").
    { destruct d as [|d]; [discriminate|].
      pose proof (skip_ws_length s1) as Hw.
      destruct (skip_ws s1) as [|c1 r1]; [discriminate|].
      destruct (Ascii.eqb c1 "}"); [injection H as _ <-; simpl in *; lia|].
      destruct (Ascii.eqb c1 Py.dquote); [|discriminate].
      apply IHm in H. simpl in *. lia. }
    destruct (Ascii.eqb c "[").
    { destruct d as [|d]; [discriminate|].
      pose proof (skip_ws_length s1) as Hw.
      destruct (skip_ws s1) as [|c1 r1]; [discriminate|].
      destruct (Ascii.eqb c1 "]"); [injection H as _ <-; simpl in *; lia|].
      apply IHe in H. simpl in *. lia. }
    apply scan_atom_shrinks in H. exact H.
  - intros d m s ps v r H. cbn [members] in H.
    destruct (scanstring s) as [[key r0]|] eqn:E; [|discriminate].
    apply scanstring_shrinks in E.
    pose proof (skip_ws_length r0) as Hw0.
    destruct (skip_ws r0) as [|c1 r1]; [discriminate|].
    destruct (Ascii.eqb c1 ":"); [|discriminate]. cbn [negb] in H.
    pose proof (skip_ws_length r1) as Hw1.
    destruct (scan_once fuel d m (skip_ws r1)) as [v1 r2| | | |] eqn:Ev;
      try discriminate.
    apply IHs in Ev.
    pose proof (skip_ws_length r2) as Hw2.
    destruct (skip_ws r2) as [|c3 r3]; [discriminate|].
    destruct (Ascii.eqb c3 "}"); [injection H as _ <-; simpl in *; lia|].
    destruct (Ascii.eqb c3 ","); [|discriminate].
    pose proof (skip_ws_length r3) as Hw3.
    destruct (skip_ws r3) as [|c4 r4]; [discriminate|].
    destruct (Ascii.eqb c4 Py.dquote); [|discriminate].
    apply IHm in H. simpl in *. lia.
  - intros d m s vs v r H. cbn [elements] in H.
    destruct (scan_once fuel d m s) as [v1 r1| | | |] eqn:Ev; try discriminate.
    apply IHs in Ev.
    pose proof (skip_ws_length r1) as Hw1.
    destruct (skip_ws r1) as [|c1 r2]; [discriminate|].
    destruct (Ascii.eqb c1 "]"); [injection H as _ <-; simpl in *; lia|].
    destruct (Ascii.eqb c1 ","); [|discriminate].
    pose proof (skip_ws_length r2) as Hw2.
    apply IHe in H. simpl in *. lia.
Qed.

(** With fuel above twice the length of the input no scanning function
    runs out of it, whatever the limits. *)
Lemma scan_never_starves : forall fuel,
  (forall d m s, (2 * len s < fuel)%nat -> scan_once fuel d m s <> Starved)
  /\ (forall d m s ps, (2 * len s + 1 < fuel)%nat -> members fuel d m s ps <> Starved)
  /\ (forall d m s vs, (2 * len s + 1 < fuel)%nat -> elements fuel d m s vs <> Starved).
Proof.
  induction fuel as [|fuel (IHs & IHm & IHe)].
  { repeat split; intros; lia. }
  repeat split.
  - intros d m s Hf. cbn [scan_once].
    destruct s as [|c s1]; [discriminate|]. cbn [String.length] in Hf.
    destruct (Ascii.eqb c Py.dquote).
    { destruct (scanstring s1) as [[x rest]|]; discriminate. }
    destruct (Ascii.eqb c "{").
    { destruct d as [|d]; [discriminate|].
      pose proof (skip_ws_length s1) as Hw.
      destruct (skip_ws s1) as [|c1 r1]; [discriminate|].
      destruct (Ascii.eqb c1 "}"); [discriminate|].
      destruct (Ascii.eqb c1 Py.dquote); [|discriminate].
      apply IHm. simpl in *. lia. }
    destruct (Ascii.eqb c "[").
    { destruct d as [|d]; [discriminate|].
      pose proof (skip_ws_length s1) as Hw.
      destruct (skip_ws s1) as [|c1 r1]; [discriminate|].
      destruct (Ascii.eqb c1 "]"); [discriminate|].
      apply IHe. simpl in *. lia. }
    apply scan_atom_never_starves.
  - intros d m s ps Hf. cbn [members].
    destruct (scanstring s) as [[key r0]|] eqn:E; [|discriminate].
    apply scanstring_shrinks in E.
    pose proof (skip_ws_length r0) as Hw0.
    destruct (skip_ws r0) as [|c1 r1]; [discriminate|].
    destruct (Ascii.eqb c1 ":"); [|discriminate]. cbn [negb].
    pose proof (skip_ws_length r1) as Hw1.
    assert (Hs : scan_once fuel d m (skip_ws r1) <> Starved)
      by (apply IHs; simpl in *; lia).
    destruct (scan_once fuel d m (skip_ws r1)) as [v1 r2| | | |] eqn:Ev;
      [|discriminate|congruence|discriminate|discriminate].
    apply (proj1 (scan_shrinks fuel)) in Ev.
    pose proof (skip_ws_length r2) as Hw2.
    destruct (skip_ws r2) as [|c3 r3]; [discriminate|].
    destruct (Ascii.eqb c3 "}"); [discriminate|].
    destruct (Ascii.eqb c3 ","); [|discriminate].
    pose proof (skip_ws_length r3) as Hw3.
    destruct (skip_ws r3) as [|c4 r4]; [discriminate|].
    destruct (Ascii.eqb c4 Py.dquote); [|discriminate].
    apply IHm. simpl in *. lia.
  - intros d m s vs Hf. cbn [elements].
    assert (Hs : scan_once fuel d m s <> Starved) by (apply IHs; lia).
    destruct (scan_once fuel d m s) as [v1 r1| | | |] eqn:Ev;
      [|discriminate|congruence|discriminate|discriminate].
    apply (proj1 (scan_shrinks fuel)) in Ev.
    pose proof (skip_ws_length r1) as Hw1.
    destruct (skip_ws r1) as [|c1 r2]; [discriminate|].
    destruct (Ascii.eqb c1 "]"); [discriminate|].
    destruct (Ascii.eqb c1 ","); [|discriminate].
    pose proof (skip_ws_length r2) as Hw2.
    apply IHe. simpl in *. lia.
Qed.

(** [loads] gives the decoder fuel enough for every input. *)
Lemma loads_never_starves (d m : nat) (s : string) :
  scan_once (S (2 * len s)) d m (skip_ws s) <> Starved.
Proof.
  apply (proj1 (scan_never_starves (S (2 * len s)))).
  pose proof (skip_ws_length s). lia.
Qed.

(** *** Texts beyond the limits *)

Lemma open_brackets_too_deep : forall d fuel m rest,
  (2 * d < fuel)%nat ->
  scan_once fuel d m (Inputs.open_brackets (S d) +:+ rest) = Deep "[".
Proof.
  induction d as [|d IH]; intros fuel m rest Hf.
  - destruct fuel as [|fuel]; [lia|]. reflexivity.
  - destruct fuel as [|[|fuel]]; [lia|lia|].
    change (Inputs.open_brackets (S (S d)) +:+ rest)
      with (String "[" (Inputs.open_brackets (S d) +:+ rest)).
    cbn [scan_once]. cbn [Ascii.eqb Bool.eqb Py.dquote].
    change (skip_ws (Inputs.open_brackets (S d) +:+ rest))
      with (Inputs.open_brackets (S d) +:+ rest).
    change (Inputs.open_brackets (S d) +:+ rest)
      with (String "[" (Inputs.open_brackets d +:+ rest)).
    cbn [Ascii.eqb Bool.eqb]. cbn [elements].
    change (String "[" (Inputs.open_brackets d +:+ rest))
      with (Inputs.open_brackets (S d) +:+ rest).
    rewrite IH by lia. reflexivity.
Qed.

Lemma span_digits_ones n : span_digits (Inputs.ones n) = (Inputs.ones n, EmptyString).
Proof. induction n as [|n IH]; [reflexivity|]. simpl. rewrite IH. reflexivity. Qed.

Lemma length_ones n : len (Inputs.ones n) = n.
Proof. induction n as [|n IH]; [reflexivity|]. simpl. rewrite IH. reflexivity. Qed.

Lemma ones_too_long fuel d m n :
  over_limit m n = true ->
  scan_once (S fuel) d m (Inputs.ones n) = Long n.
Proof.
  intros Hover. destruct n as [|n]; [discriminate Hover|].
  cbn [scan_once Inputs.ones]. cbn [Ascii.eqb Bool.eqb Py.dquote].
  unfold scan_atom. cbn [after Ascii.eqb Bool.eqb].
  unfold match_number. cbn [Ascii.eqb Bool.eqb is_digit negb].
  change (is_digit "1") with true. cbn [negb].
  change (String "1" (Inputs.ones n)) with (Inputs.ones (S n)).
  rewrite span_digits_ones. cbn [scan_frac scan_exp Py.truthy orb].
  rewrite length_ones, Hover. reflexivity.
Qed.

End Fuel.

(** ** The filename directive *)

Section Directive.

Local Abbreviation len := String.length.
Local Abbreviation nl := (Py.chr Py.newline).

Lemma length_append (a b : string) : len (a +:+ b) = (len a + len b)%nat.
Proof.
  induction a as [|c a IH]; [reflexivity|].
  rewrite append_cons. simpl. rewrite IH. reflexivity.
Qed.

Lemma index_newline_cons (c : ascii) (s : string) :
  String.index 0 nl (String c s)
  = if Ascii.eqb c Py.newline then Some 0%nat
    else option_map S (String.index 0 nl s).
Proof.
  cbn [String.index String.prefix Py.chr].
  destruct (ascii_dec Py.newline c) as [<-|Hne].
  - destruct s; reflexivity.
  - destruct (Ascii.eqb_spec c Py.newline) as [->|_]; [congruence|].
    destruct (String.index 0 nl s); reflexivity.
Qed.

Lemma find_no_newline (s : string) :
  Inputs.has_char Py.newline s = false -> Py.find s nl = -1.
Proof.
  unfold Py.find. intros H.
  assert (Hi : String.index 0 nl s = None).
  { induction s as [|c s IH]; [reflexivity|].
    simpl in H. apply orb_false_iff in H as [Hc Hs].
    rewrite index_newline_cons, Hc, (IH Hs). reflexivity. }
  rewrite Hi. reflexivity.
Qed.

Lemma find_first_newline (a rest : string) :
  Inputs.has_char Py.newline a = false ->
  Py.find (a +:+ nl +:+ rest) nl = Z.of_nat (len a).
Proof.
  unfold Py.find. intros H.
  assert (Hi : String.index 0 nl (a +:+ nl +:+ rest) = Some (len a)).
  { induction a as [|c a IH].
    - rewrite append_empty_l. unfold Py.chr at 2. rewrite append_cons.
      rewrite index_newline_cons. reflexivity.
    - simpl in H. apply orb_false_iff in H as [Hc Hs].
      rewrite append_cons, index_newline_cons, Hc, (IH Hs). reflexivity. }
  rewrite Hi. reflexivity.
Qed.

Lemma substring_prefix (a b : string) :
  String.substring 0 (len a) (a +:+ b) = a.
Proof.
  induction a as [|c a IH].
  - destruct b; reflexivity.
  - rewrite append_cons. simpl. rewrite IH. reflexivity.
Qed.

Lemma strip_space (s : string) : Py.strip (String " " s) = Py.strip s.
Proof. reflexivity. Qed.

Lemma clamp_in_range (n i : Z) : 0 <= i <= n -> Py.clamp n i = i.
Proof.
  intros H. unfold Py.clamp. cbv zeta.
  destruct (Z.ltb_spec i 0); [lia|]. destruct (Z.ltb_spec i 0); [lia|].
  destruct (Z.ltb_spec n i); lia.
Qed.

Lemma clamp_from_end (n i : Z) : - n <= i < 0 -> Py.clamp n i = i + n.
Proof.
  intros H. unfold Py.clamp. cbv zeta.
  destruct (Z.ltb_spec i 0); [|lia]. destruct (Z.ltb_spec (i + n) 0); [lia|].
  destruct (Z.ltb_spec n (i + n)); lia.
Qed.

Lemma slice_directive (x : string) (stop : Z) :
  11 <= Py.clamp (12 + Z.of_nat (len x)) stop ->
  Py.slice ("# filename: " +:+ x) 11 stop
  = String.substring 0 (Z.to_nat (Py.clamp (12 + Z.of_nat (len x)) stop - 11))
                     (String " " x).
Proof.
  intros Hstop. unfold Py.slice.
  rewrite length_append. cbn [String.length].
  replace (Z.of_nat (12 + len x)) with (12 + Z.of_nat (len x)) by lia.
  rewrite (clamp_in_range _ 11) by lia.
  rewrite !append_cons, append_empty_l. reflexivity.
Qed.

Lemma directive_with_newline (name rest : string) :
  Inputs.has_char Py.newline name = false ->
  directive_filename ("# filename: " +:+ name +:+ nl +:+ rest) = Some (Py.strip name).
Proof.
  intros H. unfold directive_filename.
  assert (Hfind : Py.find ("# filename: " +:+ name +:+ nl +:+ rest) nl
                  = Z.of_nat (12 + len name)).
  { replace (12 + len name)%nat with (len ("# filename: " +:+ name))
      by (rewrite length_append; reflexivity).
    rewrite <- append_assoc. apply find_first_newline.
    rewrite !append_cons, append_empty_l. exact H. }
  rewrite Hfind.
  assert (Hpre : Py.startswith ("# filename: " +:+ name +:+ nl +:+ rest) "# filename: "
                 = true).
  { rewrite !append_cons, append_empty_l. cbn. destruct (name +:+ _); reflexivity. }
  rewrite Hpre. f_equal.
  rewrite slice_directive; rewrite clamp_in_range;
    try (rewrite ?length_append; cbn [String.length Py.chr]; lia).
  replace (Z.to_nat (Z.of_nat (12 + len name) - 11)) with (S (len name)) by lia.
  cbn [String.substring]. rewrite substring_prefix. apply strip_space.
Qed.

Lemma directive_without_newline (name : string) :
  Inputs.has_char Py.newline name = false ->
  name <> EmptyString ->
  directive_filename ("# filename: " +:+ name) = Some (Py.strip (Py.all_but_last name)).
Proof.
  intros H Hne. unfold directive_filename.
  assert (Hfind : Py.find ("# filename: " +:+ name) nl = -1).
  { apply find_no_newline. rewrite !append_cons, append_empty_l. exact H. }
  rewrite Hfind.
  assert (Hpre : Py.startswith ("# filename: " +:+ name) "# filename: " = true).
  { rewrite !append_cons, append_empty_l. cbn. destruct name; reflexivity. }
  rewrite Hpre. f_equal.
  destruct name as [|c name']; [congruence|].
  rewrite slice_directive; rewrite clamp_from_end;
    try (cbn [String.length]; lia).
  cbn [String.length].
  replace (Z.to_nat (-1 + (12 + Z.of_nat (S (len name'))) - 11))
    with (S (len name')) by lia.
  unfold Py.all_but_last. cbn [String.length].
  replace (S (len name') - 1)%nat with (len name') by lia.
  cbn [String.substring]. apply strip_space.
Qed.

End Directive.

(** ** Stepping through the monad *)

Section Monad.

Context `{Ext : Externals}.

Lemma bind_return {A B} (m : M A) (k : A -> M B) (st st' : state) (a : A) :
  m st = (Return a, st') -> bind m k st = k a st'.
Proof. intros H. unfold bind. rewrite H. reflexivity. Qed.

Lemma bind_raise {A B} (m : M A) (k : A -> M B) (st st' : state) (e : exn) :
  m st = (Raise e, st') -> bind m k st = (Raise e, st').
Proof. intros H. unfold bind. rewrite H. reflexivity. Qed.

Lemma bind_get_self {B} (k : agent -> M B) (st : state) :
  bind get_self k st = k (self st) st.
Proof. reflexivity. Qed.

End Monad.

(** ** The argument parser: [_format_json_str] and [_extract_args] *)

Section Parser.

Context `{Ext : Externals}.

(** On a text without newline and without tab the loop copies every
    character, whatever it believes about the quotes. *)
Lemma format_loop_plain (jstr : string) :
  Inputs.has_char Py.newline jstr = false ->
  Inputs.has_char Py.tab jstr = false ->
  forall inside_quotes last_char result,
    Py.join (format_loop jstr inside_quotes last_char result)
    = Py.join result +:+ jstr.
Proof.
  induction jstr as [|c jstr IH]; simpl; intros Hnl Htab iq lc acc.
  - symmetry. apply append_empty_r.
  - apply orb_false_iff in Hnl as [Hc Hnl].
    apply orb_false_iff in Htab as [Ht Htab].
    rewrite Hc. rewrite !andb_false_r.
    assert (Heq : String.eqb (Py.chr c) (Py.chr Py.tab) = false).
    { unfold Py.chr. simpl. rewrite Ht. reflexivity. }
    rewrite Heq, andb_false_r.
    rewrite (IH Hnl Htab), join_snoc, append_assoc. reflexivity.
Qed.

Lemma format_json_str_plain (jstr : string) :
  Inputs.has_char Py.newline jstr = false ->
  Inputs.has_char Py.tab jstr = false ->
  _format_json_str jstr = jstr.
Proof.
  intros Hnl Htab. unfold _format_json_str.
  rewrite (format_loop_plain jstr Hnl Htab). reflexivity.
Qed.

(** [_extract_args] returns what the decoder returned, or the empty dict
    when it raised [JSONDecodeError]; it lets the other two exceptions of
    the decoder through. The state is left alone. *)
Lemma extract_args_outcome (input_string : string) (st : state) :
  _extract_args input_string st
  = (match Json.loads (_format_json_str input_string) with
     | Json.Value v => Return v
     | Json.JSONDecodeError => Return (Json.JObj [])
     | Json.RecursionError opening =>
         Raise (Exception "RecursionError" (describe (RecursionDepth opening)))
     | Json.ValueError digits =>
         Raise (Exception "ValueError" (describe (IntDigits digits)))
     end, st).
Proof.
  unfold _extract_args, try_except, bind, json_loads.
  destruct (Json.loads _); reflexivity.
Qed.

Lemma extract_args_state (input_string : string) (st : state) :
  snd (_extract_args input_string st) = st.
Proof. rewrite extract_args_outcome. reflexivity. Qed.

(** The decoder can enter one container at least. *)
Ltac with_room :=
  unfold Json.loads;
  let d := fresh "d" in
  let Hd := fresh "Hd" in
  pose proof recursion_budget_pos as Hd;
  destruct recursion_budget as [|d]; [inversion Hd|]; clear Hd.

(** When the decoder raises [JSONDecodeError], [_extract_args] returns
    the empty dict; on the multi-line argument string of the docstring it
    returns the dict with the keys [tool] and [query], where the newline
    inside the value of [query] is kept (the normalised string holds it as
    an escape) and the newlines between the tokens are gone. *)
Lemma extract_args_tolerates_decode_errors :
  (forall input_string st,
      Json.loads (_format_json_str input_string) = Json.JSONDecodeError ->
      _extract_args input_string st = (Return (Json.JObj []), st))
  /\ _format_json_str Inputs.multiline_arguments
     = "{" +:+ Py.quoted "tool" +:+ ": " +:+ Py.quoted "python" +:+ ","
       +:+ Py.quoted "query" +:+ ": "
       +:+ Py.quoted ("print(1)" +:+ Py.chr Py.backslash +:+ "nprint(2)") +:+ "}"
  /\ (forall st,
        _extract_args Inputs.multiline_arguments st
        = (Return (Json.JObj
                     [(Json.codes "tool", Json.JStr (Json.codes "python"));
                      (Json.codes "query",
                       Json.JStr (Json.codes ("print(1)" +:+ Py.chr Py.newline
                                              +:+ "print(2)")))]),
           st)).
Proof.
  split; [|split].
  - intros input_string st H. rewrite extract_args_outcome, H. reflexivity.
  - vm_compute. reflexivity.
  - intros st. rewrite extract_args_outcome. with_room. vm_compute. reflexivity.
Qed.

Lemma open_brackets_plain (c : ascii) (n : nat) :
  Ascii.eqb "[" c = false -> Inputs.has_char c (Inputs.open_brackets n) = false.
Proof.
  intros H. induction n as [|n IH]; [reflexivity|].
  cbn [Inputs.has_char Inputs.open_brackets]. rewrite H, IH. reflexivity.
Qed.

Lemma ones_plain (c : ascii) (n : nat) :
  Ascii.eqb "1" c = false -> Inputs.has_char c (Inputs.ones n) = false.
Proof.
  intros H. induction n as [|n IH]; [reflexivity|].
  cbn [Inputs.has_char Inputs.ones]. rewrite H, IH. reflexivity.
Qed.

Lemma length_open_brackets n : String.length (Inputs.open_brackets n) = n.
Proof. induction n as [|n IH]; [reflexivity|]. simpl. rewrite IH. reflexivity. Qed.

(** C6. [_extract_args] does not turn every failure of the decoder into
    the empty dict: it catches [JSONDecodeError] only. A text that opens
    one array more, one inside the other, than the decoder can enter
    (never closed, so not JSON) makes [json.loads] raise [RecursionError],
    and an integer of more digits than [int] converts makes it raise
    [ValueError]; [_extract_args] lets both through and returns nothing.
    Normalisation leaves both texts as they are. *)
Theorem extract_args_raises_beyond_decoder_limits :
  forall st,
    _format_json_str (Inputs.open_brackets (S recursion_budget))
    = Inputs.open_brackets (S recursion_budget)
    /\ _extract_args (Inputs.open_brackets (S recursion_budget)) st
       = (Raise (Exception "RecursionError" (describe (RecursionDepth "["))), st)
    /\ (forall n,
          (640 < n)%nat ->
          (0 < int_max_str_digits < n)%nat ->
          _format_json_str (Inputs.ones n) = Inputs.ones n
          /\ _extract_args (Inputs.ones n) st
             = (Raise (Exception "ValueError" (describe (IntDigits n))), st)).
Proof.
  intros st.
  assert (Hb : forall n, _format_json_str (Inputs.open_brackets n)
                         = Inputs.open_brackets n).
  { intros n. apply format_json_str_plain; apply open_brackets_plain; reflexivity. }
  assert (Ho : forall n, _format_json_str (Inputs.ones n) = Inputs.ones n).
  { intros n. apply format_json_str_plain; apply ones_plain; reflexivity. }
  split; [apply Hb|]. split.
  - rewrite extract_args_outcome, Hb. unfold Json.loads.
    change (Json.skip_ws (Inputs.open_brackets (S recursion_budget)))
      with (Inputs.open_brackets (S recursion_budget)).
    rewrite <- (append_empty_r (Inputs.open_brackets (S recursion_budget))) at 2.
    rewrite open_brackets_too_deep; [reflexivity|].
    rewrite length_open_brackets. lia.
  - intros n Hn Hmax. split; [apply Ho|].
    rewrite extract_args_outcome, Ho. unfold Json.loads.
    assert (Hover : Json.over_limit int_max_str_digits n = true).
    { unfold Json.over_limit.
      rewrite !andb_true_iff, !Nat.ltb_lt. lia. }
    destruct n as [|n]; [lia|].
    change (Json.skip_ws (Inputs.ones (S n))) with (Inputs.ones (S n)).
    rewrite ones_too_long by exact Hover. reflexivity.
Qed.

(** C7. Normalisation does not preserve the meaning of every valid
    single-line JSON text: an escaped backslash before a closing quote
    makes the loop believe the string goes on, and the tab that follows,
    which is white space between two tokens, is rewritten to a backslash
    and a [t]. The text decodes to a dict of two items; its normalised
    image is not JSON, and [_extract_args] returns the empty dict. *)
Theorem format_json_str_breaks_valid_json :
  Inputs.has_char Py.newline Inputs.windows_path_arguments = false
  /\ Json.loads Inputs.windows_path_arguments
     = Json.Value (Json.JObj
                     [(Json.codes "dir", Json.JStr (Json.codes ("C:" +:+ Py.chr Py.backslash)));
                      (Json.codes "n", Json.JInt 1)])
  /\ _format_json_str Inputs.windows_path_arguments
     = "{" +:+ Py.quoted "dir" +:+ ": "
       +:+ Py.quoted ("C:" +:+ Py.chr Py.backslash +:+ Py.chr Py.backslash)
       +:+ "," +:+ Py.chr Py.backslash +:+ "t" +:+ Py.quoted "n" +:+ ": 1}"
  /\ Json.loads (_format_json_str Inputs.windows_path_arguments)
     = Json.JSONDecodeError
  /\ (forall st,
        _extract_args Inputs.windows_path_arguments st
        = (Return (Json.JObj []), st)).
Proof.
  split; [|split; [|split; [|split]]]; try intros st;
    try rewrite extract_args_outcome; try with_room; vm_compute; reflexivity.
Qed.

End Parser.

(** ** Code execution: [_execute_code] *)

Section CodeExecution.

Context `{Ext : Externals}.

Lemma recognized_false (b : string * string) :
  recognized b = false ->
  Py.in_list (effective_lang b) shell_family = false
  /\ String.eqb (effective_lang b) "python" = false.
Proof. unfold recognized. intros H. apply orb_false_iff in H. exact H. Qed.

(** An unrecognized block raises before anything happens. *)
Lemma execute_block_unrecognized (b : string * string) (st : state) :
  recognized b = false ->
  execute_block b st
  = (Raise (Exception "ValueError"
              "not enough values to unpack (expected 3, got 2)"), st).
Proof.
  intros H. apply recognized_false in H as [Hsh Hpy].
  destruct b as [lang code]. unfold effective_lang in Hsh, Hpy.
  cbn [fst snd] in Hsh, Hpy.
  unfold execute_block, bind, get_self. cbv beta iota zeta.
  rewrite Hsh, Hpy. reflexivity.
Qed.

(** A recognized block calls the service once, with the current value of
    [_use_docker]; the image is stored only if the log decodes. *)
Lemma execute_block_recognized (b : string * string) (st : state) :
  recognized b = true ->
  execute_block b st
  = let rq := request_for (self st) b in
    let rs := fst (execute_code rq (world st)) in
    let w := snd (execute_code rq (world st)) in
    let tr := trace st ++ [EvExecuteCode rq rs] in
    match decode_utf8 (rs_logs rs) with
    | Some logs =>
        (Return (rs_exitcode rs, logs),
         State (set_use_docker (self st) (DImage (rs_image rs))) w tr)
    | None =>
        (Raise (Exception "UnicodeDecodeError"
                  (describe (UndecodableBytes (rs_logs rs)))),
         State (self st) w tr)
    end.
Proof.
  intros H. destruct b as [lang code].
  unfold recognized, request_for, effective_lang in *.
  cbn [fst snd] in *.
  unfold execute_block, bind, get_self, call_execute_code, decode, put_self, ret, raise.
  cbv beta iota zeta.
  destruct (Py.in_list _ shell_family) eqn:Hsh.
  - destruct (execute_code _ _) as [rs w] eqn:Hx. cbn [fst snd].
    destruct (decode_utf8 (rs_logs rs)); reflexivity.
  - rewrite orb_false_l in H. rewrite H.
    destruct (execute_code _ _) as [rs w] eqn:Hx. cbn [fst snd].
    destruct (decode_utf8 (rs_logs rs)); reflexivity.
Qed.

Lemma request_for_use_docker (a : agent) (b : string * string) :
  rq_use_docker (request_for a b) = _use_docker a.
Proof. unfold request_for. destruct (Py.in_list _ _); reflexivity. Qed.





(** C2. A block whose language is neither of the shell family nor
    ["python"] makes [_execute_code] raise [ValueError]: the branch
    assigns two values to three targets. The execution service is not
    called and the state is unchanged, but no result is produced. *)
Theorem execute_code_unrecognized_language_raises :
  forall code_block rest st,
    recognized code_block = false ->
    _execute_code (code_block :: rest) st
    = (Raise (Exception "ValueError"
                "not enough values to unpack (expected 3, got 2)"), st).
Proof.
  intros b rest st H. unfold _execute_code. cbn [execute_code_loop].
  unfold bind. rewrite (execute_block_unrecognized b st H). reflexivity.
Qed.

(** C9. When the source of a ["python"] block is the directive alone, with
    no newline after it, [find] answers -1 and the slice stops before the
    last character: the service is asked to use the name without its last
    character ([test.p] for ["# filename: test.py"]). With a newline after
    the directive the name is complete, and without the directive the
    filename is [None]. *)
Theorem filename_directive_without_newline_is_truncated :
  (forall name st,
      Inputs.has_char Py.newline name = false ->
      name <> EmptyString ->
      exists rs,
        trace (snd (execute_block ("python", "# filename: " +:+ name) st))
        = trace st
          ++ [EvExecuteCode
                (ExecRequest ("# filename: " +:+ name) (_work_dir (self st))
                             (Some (Py.strip (Py.all_but_last name)))
                             (_use_docker (self st)) None) rs])
  /\ directive_filename "# filename: test.py" = Some "test.p"
  /\ (forall name rest,
        Inputs.has_char Py.newline name = false ->
        directive_filename ("# filename: " +:+ name +:+ Py.chr Py.newline +:+ rest)
        = Some (Py.strip name))
  /\ (forall code,
        Py.startswith code "# filename: " = false ->
        directive_filename code = None).
Proof.
  split; [|split; [|split]].
  - intros name st Hnl Hne.
    assert (Hrec : recognized ("python", "# filename: " +:+ name) = true)
      by reflexivity.
    rewrite (execute_block_recognized _ st Hrec). cbv zeta.
    assert (Hrq : request_for (self st) ("python", "# filename: " +:+ name)
                  = ExecRequest ("# filename: " +:+ name) (_work_dir (self st))
                                (Some (Py.strip (Py.all_but_last name)))
                                (_use_docker (self st)) None).
    { unfold request_for. cbn [snd].
      rewrite (directive_without_newline name Hnl Hne). reflexivity. }
    rewrite Hrq.
    destruct (decode_utf8 _); eexists; reflexivity.
  - vm_compute. reflexivity.
  - intros name rest Hnl. apply directive_with_newline, Hnl.
  - intros code H. unfold directive_filename. rewrite H. reflexivity.
Qed.

(** The loop, from any value of its variables: the calls it makes are
    chained through [_use_docker]. *)
Lemma execute_code_loop_forwards (code_blocks : list (string * string)) :
  forall st exitcode logs_all,
  exists calls,
    trace (snd (execute_code_loop code_blocks exitcode logs_all st))
    = trace st ++ exec_events calls
    /\ forwards (_use_docker (self st)) calls
    /\ (forall x,
          fst (execute_code_loop code_blocks exitcode logs_all st) = Return x ->
          _use_docker (self (snd (execute_code_loop code_blocks exitcode logs_all st)))
          = stored_after (_use_docker (self st)) calls).
Proof.
  induction code_blocks as [|b rest IH]; intros st exitcode logs_all.
  - exists []. cbn [execute_code_loop].
    destruct exitcode; cbn; rewrite app_nil_r; auto.
  - cbn [execute_code_loop]. unfold bind at 1 2 3.
    destruct (recognized b) eqn:Hrec.
    + rewrite (execute_block_recognized b st Hrec). cbv zeta.
      set (rq := request_for (self st) b).
      set (rs := fst (execute_code rq (world st))).
      set (w := snd (execute_code rq (world st))).
      destruct (decode_utf8 (rs_logs rs)) as [logs|].
      * destruct (negb (rs_exitcode rs =? 0)).
        -- exists [(rq, rs)]. cbn.
           repeat split; auto; apply request_for_use_docker.
        -- destruct (IH (State (set_use_docker (self st) (DImage (rs_image rs))) w
                               (trace st ++ [EvExecuteCode rq rs]))
                        (Some (rs_exitcode rs))
                        (logs_all +:+ Py.chr Py.newline +:+ logs))
             as (calls & Htr & Hfw & Hst).
           exists ((rq, rs) :: calls). split; [|split].
           ++ rewrite Htr. cbn [trace exec_events map fst snd].
              rewrite <- app_assoc. reflexivity.
           ++ cbn [forwards]. split; [apply request_for_use_docker|exact Hfw].
           ++ intros x Hx. rewrite (Hst x Hx). reflexivity.
      * exists [(rq, rs)]. cbn.
        repeat split; auto; try apply request_for_use_docker.
        intros x Hx. discriminate Hx.
    + rewrite (execute_block_unrecognized b st Hrec).
      exists []. cbn. rewrite app_nil_r. repeat split; auto.
Qed.

(** C8 (amended). The agent has one field for both: each call of
    [execute_code] gets the current value of [_use_docker], and after the
    call the field holds the image the call returned. So the first call
    of [_execute_code] gets the value the field had before (the
    constructor argument if no block was run yet), every later call gets
    the image returned by the call before it, and when [_execute_code]
    returns the field holds the image returned by the last call. *)
Theorem use_docker_holds_the_last_image :
  forall code_blocks st,
  exists calls,
    trace (snd (_execute_code code_blocks st)) = trace st ++ exec_events calls
    /\ forwards (_use_docker (self st)) calls
    /\ (forall x,
          fst (_execute_code code_blocks st) = Return x ->
          _use_docker (self (snd (_execute_code code_blocks st)))
          = stored_after (_use_docker (self st)) calls).
Proof.
  intros code_blocks st. apply execute_code_loop_forwards.
Qed.

End CodeExecution.

(** ** Function calls: [_execute_function] *)

Section FunctionCalls.

Context `{Ext : Externals}.

Lemma update_non_dict (v : Json.value) (other : kwargs) (st : state) :
  type_name v <> "dict" ->
  update v other st
  = (Raise (Exception "AttributeError"
              ("'" +:+ type_name v +:+ "' object has no attribute 'update'")), st).
Proof. destruct v; intros H; try reflexivity. exfalso. apply H. reflexivity. Qed.

(** C1. For a registered name, when the argument string decodes to a
    JSON value that is not an object ([null], a number, a string, a list),
    [arguments.update] raises [AttributeError] outside the [try] block
    and [_execute_function] lets it through: no pair is returned. *)
Theorem execute_function_raises_on_non_dict_arguments :
  forall func_call func_dict v st,
    _function_map (self st) !! default EmptyString (fc_name func_call)
    = Some func_dict ->
    Json.loads (_format_json_str (default EmptyString (fc_arguments func_call)))
    = Json.Value v ->
    type_name v <> "dict" ->
    _execute_function func_call st
    = (Raise (Exception "AttributeError"
                ("'" +:+ type_name v +:+ "' object has no attribute 'update'")), st).
Proof.
  intros fc fd v st Hreg Hloads Hv.
  unfold _execute_function. rewrite bind_get_self, Hreg.
  apply bind_raise.
  rewrite (bind_return _ _ st st v)
    by (rewrite extract_args_outcome, Hloads; reflexivity).
  apply bind_raise, update_non_dict, Hv.
Qed.

Lemma update_state (v : Json.value) (other : kwargs) (st : state) :
  snd (update v other st) = st.
Proof. destruct v; reflexivity. Qed.

Lemma try_call_frame (fd : func_entry) (args : kwargs) (st : state) :
  let body :=
    try_except
      (func <- resolve fd ;; content <- call func args ;; ret (true, Returned content))
      (fun _ => true)
      (fun e => ret (false, Message ("Error: " +:+ exn_message e))) in
  (exists r, fst (body st) = Return r)
  /\ self (snd (body st)) = self st
  /\ trace (snd (body st)) = trace st.
Proof.
  cbv zeta. unfold try_except, bind, resolve, call, ret, raise.
  destruct (fe_class fd) as [obj|].
  - destruct (fe_func_name fd) as [n|]; [|cbn; eauto].
    destruct (obj_getattr obj n) as [f|].
    + destruct (f args (world st)) as [[v|e] w]; cbn; eauto.
    + destruct (obj_call obj args (world st)) as [[v|e] w]; cbn; eauto.
  - destruct (fe_function fd) as [f|]; [|cbn; eauto].
    destruct (f args (world st)) as [[v|e] w]; cbn; eauto.
Qed.

Lemma registered_call_frame (fd : func_entry) (input_string : string) (st : state) :
  let body :=
    (arguments <- _extract_args input_string ;;
     arguments <- update arguments (default [] (fe_args fd)) ;;
     try_except
       (func <- resolve fd ;; content <- call func arguments ;;
        ret (true, Returned content))
       (fun _ => true)
       (fun e => ret (false, Message ("Error: " +:+ exn_message e)))) in
  self (snd (body st)) = self st /\ trace (snd (body st)) = trace st.
Proof.
  cbv zeta.
  pose proof (extract_args_state input_string st) as Hs.
  destruct (_extract_args input_string st) as [[v|e0] st0] eqn:Hx;
    cbn [snd] in Hs; subst st0;
    [|rewrite (bind_raise _ _ st st e0 Hx); split; reflexivity].
  rewrite (bind_return _ _ st st v Hx).
  pose proof (update_state v (default [] (fe_args fd)) st) as Hst.
  destruct (update v (default [] (fe_args fd)) st) as [[args|e] st1] eqn:Hup;
    cbn [snd] in Hst; subst st1.
  - rewrite (bind_return _ _ st st args Hup).
    destruct (try_call_frame fd args st) as (_ & Hself & Htrace).
    exact (conj Hself Htrace).
  - rewrite (bind_raise _ _ st st e Hup). split; reflexivity.
Qed.

(** For a name that is not registered, and for a registered name whose
    arguments decode to a dict or make the decoder raise
    [JSONDecodeError], [_execute_function] returns its pair, whatever the
    callable does. *)
Lemma execute_function_returns (fc : func_call) (st : state) :
  match _function_map (self st) !! default EmptyString (fc_name fc) with
  | None => True
  | Some _ =>
      match Json.loads (_format_json_str (default EmptyString (fc_arguments fc))) with
      | Json.Value v => type_name v = "dict"
      | Json.JSONDecodeError => True
      | Json.RecursionError _ | Json.ValueError _ => False
      end
  end ->
  exists ok content,
    fst (_execute_function fc st)
    = Return (ok, FuncReturn (default EmptyString (fc_name fc)) "function" content).
Proof.
  intros H. unfold _execute_function. rewrite bind_get_self.
  destruct (_function_map (self st) !! _) as [fd|]; [|eexists _, _; reflexivity].
  unfold bind at 1.
  assert (Hv : exists pairs,
             _extract_args (default EmptyString (fc_arguments fc)) st
             = (Return (Json.JObj pairs), st)).
  { rewrite extract_args_outcome.
    destruct (Json.loads _) as [v| | |]; try contradiction; [|eauto].
    destruct v; try discriminate H. eauto. }
  destruct Hv as [pairs Hx].
  rewrite (bind_return _ _ st st _ Hx).
  erewrite (bind_return (update _ _)) by reflexivity.
  destruct (try_call_frame fd
              (Json.dict_update (map (fun kv => (fst kv, AJson (snd kv))) pairs)
                                (default [] (fe_args fd))) st)
    as ([[ok c] Hr] & _ & _).
  cbv zeta in Hr.
  destruct (try_except _ _ _ st) as [r st1]. cbn [fst] in Hr. subst r.
  eexists _, _. reflexivity.
Qed.

(** [_execute_function] touches neither the fields of the agent nor the
    trace. *)
Lemma execute_function_frame (fc : func_call) (st : state) :
  self (snd (_execute_function fc st)) = self st
  /\ trace (snd (_execute_function fc st)) = trace st.
Proof.
  unfold _execute_function. rewrite bind_get_self.
  destruct (_function_map (self st) !! _) as [fd|]; [|split; reflexivity].
  pose proof (registered_call_frame fd (default EmptyString (fc_arguments fc)) st)
    as H.
  cbv zeta in H.
  set (inner := bind (_extract_args _) _) in *. unfold bind.
  destruct (inner st) as [[[ok c]|e] st1]; exact H.
Qed.

End FunctionCalls.

(** ** The turn controller: [auto_reply] and [receive] *)

Section TurnController.

Context `{Ext : Externals}.

Local Abbreviation counters st := (_consecutive_auto_reply_counter (self st)).

(** *** Nothing below [receive] writes the counters *)

Lemma execute_code_loop_counters (code_blocks : list (string * string)) :
  forall st exitcode logs_all,
    counters (snd (execute_code_loop code_blocks exitcode logs_all st))
    = counters st.
Proof.
  induction code_blocks as [|b rest IH]; intros st exitcode logs_all.
  - cbn [execute_code_loop]. destruct exitcode; reflexivity.
  - cbn [execute_code_loop]. unfold bind at 1.
    destruct (recognized b) eqn:Hrec.
    + rewrite (execute_block_recognized b st Hrec). cbv zeta.
      destruct (decode_utf8 _) as [logs|]; [|reflexivity].
      destruct (negb _); [reflexivity|]. rewrite IH. reflexivity.
    + rewrite (execute_block_unrecognized b st Hrec). reflexivity.
Qed.

Lemma auto_reply_counters (m : msg) (sender default_reply : string) (st : state) :
  counters (snd (auto_reply m sender default_reply st)) = counters st.
Proof.
  unfold auto_reply.
  destruct (msg_function_call m) as [fc|].
  - destruct (execute_function_frame fc st) as [Hself _].
    unfold bind. destruct (_execute_function fc st) as [[[ok fr]|e] st1];
      cbn [snd] in *; rewrite <- Hself; reflexivity.
  - destruct (msg_content m) as [text|]; [|reflexivity].
    destruct (_ && _); [reflexivity|].
    pose proof (execute_code_loop_counters (extract_code text) st None EmptyString)
      as H.
    unfold bind, _execute_code.
    destruct (execute_code_loop _ _ _ st) as [[[e l]|e] st1];
      cbn [snd] in *; rewrite <- H; reflexivity.
Qed.

(** *** The counter accessors *)

Lemma counter_getitem_spec (sender : string) (st : state) :
  counter_getitem sender st = (Return (counter_of st sender), touched sender st).
Proof.
  unfold counter_getitem, counter_of, touched. rewrite bind_get_self.
  destruct (counters st !! sender); reflexivity.
Qed.

Lemma counter_setitem_spec (sender : string) (n : Z) (st : state) :
  counter_setitem sender n st = (Return tt, with_counter sender n st).
Proof. reflexivity. Qed.

Lemma counter_of_touched (sender other : string) (st : state) :
  counter_of (touched sender st) other = counter_of st other.
Proof.
  unfold touched, counter_of.
  destruct (counters st !! sender) eqn:H; [reflexivity|].
  cbn. destruct (decide (sender = other)) as [->|Hne].
  - rewrite lookup_insert_eq, H. reflexivity.
  - rewrite lookup_insert_ne by exact Hne. reflexivity.
Qed.

Lemma counter_of_with_counter (sender other : string) (n : Z) (st : state) :
  counter_of (with_counter sender n st) other
  = if decide (sender = other) then n else counter_of st other.
Proof.
  unfold with_counter, counter_of. cbn.
  destruct (decide (sender = other)) as [->|Hne].
  - rewrite lookup_insert_eq. reflexivity.
  - rewrite lookup_insert_ne by exact Hne. reflexivity.
Qed.

Lemma with_counter_touched (sender : string) (n : Z) (st : state) :
  with_counter sender n (touched sender st) = with_counter sender n st.
Proof.
  unfold touched, with_counter.
  destruct (counters st !! sender); [reflexivity|].
  cbn. rewrite insert_insert_eq. reflexivity.
Qed.

Lemma counters_nonneg_touched (sender : string) (st : state) :
  counters_nonneg st -> counters_nonneg (touched sender st).
Proof.
  unfold counters_nonneg, touched. intros H k n.
  destruct (counters st !! sender) eqn:Hs; [apply H|].
  cbn. destruct (decide (sender = k)) as [->|Hne].
  - rewrite lookup_insert_eq. intros [= <-]. lia.
  - rewrite lookup_insert_ne by exact Hne. apply H.
Qed.

Lemma counters_nonneg_with_counter (sender : string) (n : Z) (st : state) :
  0 <= n -> counters_nonneg st -> counters_nonneg (with_counter sender n st).
Proof.
  unfold counters_nonneg, with_counter. intros Hn H k x. cbn.
  destruct (decide (sender = k)) as [->|Hne].
  - rewrite lookup_insert_eq. intros [= <-]. exact Hn.
  - rewrite lookup_insert_ne by exact Hne. apply H.
Qed.

Lemma counter_of_nonneg (sender : string) (st : state) :
  counters_nonneg st -> 0 <= counter_of st sender.
Proof.
  unfold counters_nonneg, counter_of. intros H.
  destruct (counters st !! sender) eqn:Hs; cbn; [eauto|lia].
Qed.

(** *** The reply *)

Local Abbreviation mode st := (_human_input_mode (self st)).
Local Abbreviation limit st := (_max_consecutive_auto_reply (self st)).
Local Abbreviation terminates st m := (_is_termination_msg (self st) m).

(** [get_reply] always returns. What it returns, and the state it leaves,
    by mode. *)
Lemma get_reply_spec (m : msg) (sender : string) (st : state) :
  get_reply m sender st
  = if String.eqb (mode st) "ALWAYS" then
      (Return (fst (input prompt_always (world st))),
       State (self st) (snd (input prompt_always (world st)))
             (trace st ++ [EvInput prompt_always (fst (input prompt_always (world st)))]))
    else if (limit st <=? counter_of st sender) || terminates st m then
      if String.eqb (mode st) "TERMINATE" then
        let typed := fst (input prompt_terminate (world st)) in
        (Return (if Py.truthy typed then typed else "exit"),
         State (self (touched sender st)) (snd (input prompt_terminate (world st)))
               (trace st ++ [EvInput prompt_terminate typed]))
      else (Return "exit", touched sender st)
    else (Return EmptyString, touched sender st).
Proof.
  unfold get_reply. rewrite bind_get_self.
  destruct (String.eqb (mode st) "ALWAYS").
  - unfold call_input. destruct (input prompt_always (world st)); reflexivity.
  - rewrite (bind_return _ _ _ _ _ (counter_getitem_spec sender st)).
    destruct (_ || _); [|reflexivity].
    destruct (String.eqb (mode st) "TERMINATE"); [|reflexivity].
    unfold bind, call_input, touched.
    destruct (counters st !! sender); cbn [self world trace];
      destruct (input prompt_terminate (world st)); reflexivity.
Qed.

(** The counters as [counter_of] reads them are those of [st]; the
    configuration is that of [st]. *)
Lemma get_reply_frame (m : msg) (sender : string) (st : state) :
  let st1 := snd (get_reply m sender st) in
  (forall other, counter_of st1 other = counter_of st other)
  /\ (counters_nonneg st -> counters_nonneg st1)
  /\ _is_termination_msg (self st1) = _is_termination_msg (self st)
  /\ exists reply, fst (get_reply m sender st) = Return reply.
Proof.
  cbv zeta. rewrite get_reply_spec.
  pose proof (counter_of_touched sender) as Ht.
  pose proof (counters_nonneg_touched sender st) as Hn.
  assert (Hterm : _is_termination_msg (self (touched sender st))
                  = _is_termination_msg (self st)).
  { unfold touched. destruct (counters st !! sender); reflexivity. }
  destruct (String.eqb (mode st) "ALWAYS"); cbn [fst snd].
  { repeat split; eauto. }
  destruct (_ || _); [|repeat split; eauto].
  destruct (String.eqb (mode st) "TERMINATE"); cbv zeta; cbn [fst snd];
    repeat split; eauto.
Qed.

(** *** What [receive] does with the reply *)

Lemma act_on_reply_stop (m : msg) (sender reply : string) (st : state) :
  String.eqb reply "exit" || (terminates st m && negb (Py.truthy reply)) = true ->
  act_on_reply m sender reply st = (Return tt, with_counter sender 0 st).
Proof.
  intros H. unfold act_on_reply. rewrite bind_get_self, H. reflexivity.
Qed.

Lemma act_on_reply_human (m : msg) (sender reply : string) (st : state) :
  String.eqb reply "exit" || (terminates st m && negb (Py.truthy reply)) = false ->
  Py.truthy reply = true ->
  act_on_reply m sender reply st
  = (Return tt, logged (EvSend (OutText reply) sender) (with_counter sender 0 st)).
Proof.
  intros H Ht. unfold act_on_reply. rewrite bind_get_self, H, Ht. reflexivity.
Qed.

Lemma act_on_reply_auto (m : msg) (sender reply : string) (st : state) :
  terminates st m = false ->
  Py.truthy reply = false ->
  act_on_reply m sender reply st
  = auto_reply m sender EmptyString
      (logged (EvPrint no_human_input_message)
              (with_counter sender (counter_of st sender + 1) st)).
Proof.
  intros Hterm Ht. destruct reply; [|discriminate Ht].
  unfold act_on_reply. rewrite bind_get_self, Hterm. cbn [String.eqb orb andb Py.truthy].
  rewrite (bind_return _ _ _ _ _ (counter_getitem_spec sender st)).
  rewrite (bind_return _ _ _ _ _ (counter_setitem_spec sender _ _)).
  rewrite with_counter_touched. reflexivity.
Qed.

(** The counter after [act_on_reply]: 0 when there is a reply or the
    message ends the conversation, one more otherwise; the counters of
    the other senders stay. *)
Lemma act_on_reply_counter (m : msg) (sender reply : string) (st : state) :
  let st' := snd (act_on_reply m sender reply st) in
  counter_of st' sender
  = (if Py.truthy reply || terminates st m then 0 else counter_of st sender + 1)
  /\ (forall other, other <> sender -> counter_of st' other = counter_of st other)
  /\ (counters_nonneg st -> counters_nonneg st').
Proof.
  cbv zeta.
  destruct (String.eqb reply "exit" || (terminates st m && negb (Py.truthy reply)))
    eqn:Hstop.
  - rewrite (act_on_reply_stop _ _ _ _ Hstop). cbn [snd].
    assert (Hc : Py.truthy reply || terminates st m = true).
    { apply orb_true_iff in Hstop as [H|H].
      - apply String.eqb_eq in H. subst reply. reflexivity.
      - apply andb_true_iff in H as [H _]. rewrite H. apply orb_true_r. }
    rewrite Hc. split; [|split].
    + rewrite counter_of_with_counter. destruct (decide _); congruence.
    + intros other Hne. rewrite counter_of_with_counter.
      destruct (decide _); congruence.
    + apply counters_nonneg_with_counter. lia.
  - apply orb_false_iff in Hstop as [Hexit Hterm].
    destruct (Py.truthy reply) eqn:Htruthy.
    + rewrite act_on_reply_human; [|rewrite Hexit, Htruthy, andb_false_r; reflexivity|exact Htruthy].
      cbn [snd orb]. split; [|split].
      * unfold logged, counter_of. cbn. rewrite lookup_insert_eq. reflexivity.
      * intros other Hne. unfold logged, counter_of. cbn.
        rewrite lookup_insert_ne by congruence. reflexivity.
      * intros H. apply (counters_nonneg_with_counter sender 0 st ltac:(lia)) in H.
        exact H.
    + rewrite andb_true_r in Hterm. rewrite Hterm. cbn [orb].
      rewrite (act_on_reply_auto _ _ _ _ Hterm Htruthy).
      set (st2 := logged _ _).
      pose proof (auto_reply_counters m sender EmptyString st2) as Hfr.
      unfold counter_of, counters_nonneg. rewrite Hfr.
      subst st2. unfold logged, with_counter. cbn. split; [|split].
      * rewrite lookup_insert_eq. reflexivity.
      * intros other Hne. rewrite lookup_insert_ne by congruence. reflexivity.
      * intros H k x. destruct (decide (sender = k)) as [->|Hne].
        -- rewrite lookup_insert_eq. intros [= <-].
           pose proof (counter_of_nonneg k st H). unfold counter_of in *. lia.
        -- rewrite lookup_insert_ne by exact Hne. apply H.
Qed.

(** [receive], step by step. *)
Lemma receive_unfold (message : message) (sender : string) (st : state) :
  receive message sender st
  = (reply <- get_reply (normalize message) sender ;;
     act_on_reply (normalize message) sender reply)
      (logged (EvReceived (normalize message) sender) st).
Proof. destruct message; reflexivity. Qed.

Lemma receive_counter (message : message) (sender : string) (st : state) :
  let m := normalize message in
  exists reply,
    fst (get_reply m sender (logged (EvReceived m sender) st)) = Return reply
    /\ counter_of (after_receive message sender st) sender
       = (if Py.truthy reply || terminates st m then 0
          else counter_of st sender + 1)
    /\ (forall other,
          other <> sender ->
          counter_of (after_receive message sender st) other = counter_of st other)
    /\ (counters_nonneg st -> counters_nonneg (after_receive message sender st)).
Proof.
  cbv zeta. unfold after_receive. rewrite receive_unfold.
  set (m := normalize message). set (st0 := logged (EvReceived m sender) st).
  destruct (get_reply_frame m sender st0) as (Hc & Hn & Hterm & reply & Hreply).
  cbv zeta in Hc, Hn, Hterm.
  destruct (get_reply m sender st0) as [r st1] eqn:Hget.
  cbn [fst snd] in *. subst r.
  exists reply. split; [reflexivity|].
  rewrite (bind_return _ _ _ _ _ Hget).
  destruct (act_on_reply_counter m sender reply st1) as (H1 & H2 & H3).
  cbv zeta in H1, H2, H3. rewrite Hterm in H1.
  split; [|split].
  - rewrite H1, Hc. reflexivity.
  - intros other Hne. rewrite (H2 other Hne), Hc. reflexivity.
  - intros H. apply H3, Hn, H.
Qed.

Lemma after_receives_nonneg (calls : list (message * string)) :
  forall st, counters_nonneg st -> counters_nonneg (after_receives calls st).
Proof.
  induction calls as [|[m sender] calls IH]; intros st H; [exact H|].
  unfold after_receives. cbn [fold_left fst snd]. apply IH.
  destruct (receive_counter m sender st) as (_ & _ & _ & _ & Hn). apply Hn, H.
Qed.

(** C3 (amended). After [receive], the counter of the sender is 0 when
    the reply left by the mode logic is not empty or the message ends the
    conversation, and one more than before otherwise; the counters of the
    other senders do not change, and no counter is ever negative. The
    reply is not only what a human typed: in a mode other than [ALWAYS]
    and [TERMINATE], once the counter has reached the limit, the reply is
    [exit] and nobody is asked; in the mode [TERMINATE], an empty line
    typed at the prompt is replaced by [exit]. Both reset the counter. *)
Theorem counter_is_reset_or_incremented :
  (forall message sender st,
      let m := normalize message in
      exists reply,
        fst (get_reply m sender (logged (EvReceived m sender) st)) = Return reply
        /\ counter_of (after_receive message sender st) sender
           = (if Py.truthy reply || terminates st m then 0
              else counter_of st sender + 1)
        /\ (forall other,
              other <> sender ->
              counter_of (after_receive message sender st) other
              = counter_of st other)
        /\ (String.eqb (mode st) "ALWAYS" = false ->
            String.eqb (mode st) "TERMINATE" = false ->
            limit st <= counter_of st sender ->
            reply = "exit"
            /\ trace (after_receive message sender st)
               = trace st ++ [EvReceived m sender])
        /\ (String.eqb (mode st) "TERMINATE" = true ->
            limit st <= counter_of st sender \/ terminates st m = true ->
            fst (input prompt_terminate (world st)) = EmptyString ->
            reply = "exit"))
  /\ (forall calls st,
        counters_nonneg st -> counters_nonneg (after_receives calls st)).
Proof.
  split; [|intros calls st; apply after_receives_nonneg].
  intros message sender st. cbv zeta.
  destruct (receive_counter message sender st) as (reply & Hreply & Hc & Ho & _).
  cbv zeta in Hreply, Hc, Ho.
  exists reply. split; [exact Hreply|]. split; [exact Hc|]. split; [exact Ho|].
  set (m := normalize message) in *.
  set (st0 := logged (EvReceived m sender) st) in *.
  assert (Hcnt : counter_of st0 sender = counter_of st sender) by reflexivity.
  split.
  - intros Ha Ht Hlim.
    assert (Hget : get_reply m sender st0 = (Return "exit", touched sender st0)).
    { rewrite get_reply_spec. unfold st0. cbn [logged self].
      rewrite Ha, Ht.
      replace (limit st <=? counter_of (logged (EvReceived m sender) st) sender)
        with true by (symmetry; apply Z.leb_le; exact Hlim).
      reflexivity. }
    rewrite Hget in Hreply. cbn [fst] in Hreply. injection Hreply as <-.
    split; [reflexivity|].
    unfold after_receive. rewrite receive_unfold. fold m st0.
    rewrite (bind_return _ _ _ _ _ Hget).
    rewrite act_on_reply_stop by reflexivity.
    cbn [snd]. unfold with_counter, touched. cbn [trace].
    destruct (counters st0 !! sender); reflexivity.
  - intros Ht Hor Htyped.
    assert (Ha : String.eqb (mode st) "ALWAYS" = false).
    { apply String.eqb_eq in Ht. rewrite Ht. reflexivity. }
    rewrite get_reply_spec in Hreply. unfold st0 in Hreply.
    cbn [logged self world] in Hreply. fold st0 in Hreply.
    rewrite Ha, Ht in Hreply.
    replace ((limit st <=? counter_of st0 sender) || terminates st m) with true
      in Hreply.
    + cbv zeta in Hreply. rewrite Htyped in Hreply. cbn [fst Py.truthy] in Hreply.
      injection Hreply as <-. reflexivity.
    + symmetry. apply orb_true_iff. destruct Hor as [H|H]; [left|right; exact H].
      apply Z.leb_le. rewrite Hcnt. exact H.
Qed.

(** C4 (amended). When the reply left by the mode logic is empty and the
    message does not end the conversation, [receive] adds one to the
    counter of the sender and calls [auto_reply] with the empty
    [default_reply]. The reply is empty when the mode is [ALWAYS] and the
    human typed nothing, or when the mode is not [ALWAYS], the counter is
    below the limit and the message does not end the conversation. In the
    mode [TERMINATE] with the counter at the limit, an empty line typed
    at the prompt is replaced by [exit]: the counter is reset and
    [auto_reply] is not called. *)
Theorem empty_reply_leads_to_auto_reply :
  (forall message sender st st1,
      let m := normalize message in
      get_reply m sender (logged (EvReceived m sender) st)
      = (Return EmptyString, st1) ->
      terminates st m = false ->
      receive message sender st
      = auto_reply m sender EmptyString
          (logged (EvPrint no_human_input_message)
                  (with_counter sender (counter_of st sender + 1) st1))
      /\ counter_of (after_receive message sender st) sender
         = counter_of st sender + 1)
  /\ (forall m sender st,
        fst (get_reply m sender st) = Return EmptyString
        <-> (String.eqb (mode st) "ALWAYS" = true
             /\ fst (input prompt_always (world st)) = EmptyString)
            \/ (String.eqb (mode st) "ALWAYS" = false
                /\ (limit st <=? counter_of st sender) || terminates st m = false))
  /\ (forall message sender st,
        let m := normalize message in
        String.eqb (mode st) "TERMINATE" = true ->
        (limit st <=? counter_of st sender) || terminates st m = true ->
        fst (input prompt_terminate (world st)) = EmptyString ->
        fst (receive message sender st) = Return tt
        /\ counter_of (after_receive message sender st) sender = 0
        /\ trace (after_receive message sender st)
           = trace st ++ [EvReceived m sender; EvInput prompt_terminate EmptyString]).
Proof.
  split; [|split].
  - intros message sender st st1 m Hget Hterm.
    pose proof (get_reply_frame m sender (logged (EvReceived m sender) st))
      as (Hc & _ & Hterm1 & _).
    cbv zeta in Hc, Hterm1. rewrite Hget in Hc, Hterm1. cbn [snd] in Hc, Hterm1.
    assert (Hrecv : receive message sender st
                    = auto_reply m sender EmptyString
                        (logged (EvPrint no_human_input_message)
                           (with_counter sender (counter_of st sender + 1) st1))).
    { rewrite receive_unfold. fold m. rewrite (bind_return _ _ _ _ _ Hget).
      rewrite act_on_reply_auto; [|rewrite Hterm1; exact Hterm|reflexivity].
      rewrite Hc. reflexivity. }
    split; [exact Hrecv|].
    unfold after_receive. rewrite Hrecv.
    unfold counter_of. rewrite auto_reply_counters.
    unfold logged, with_counter. cbn. rewrite lookup_insert_eq. reflexivity.
  - intros m sender st. rewrite get_reply_spec.
    destruct (String.eqb (mode st) "ALWAYS"); cbn [fst].
    + split.
      * intros [= H]. left. split; [reflexivity|exact H].
      * intros [[_ H]|[H _]]; [rewrite H; reflexivity|discriminate H].
    + destruct ((limit st <=? counter_of st sender) || terminates st m).
      * split; [|intros [[H _]|[_ H]]; discriminate H].
        destruct (String.eqb (mode st) "TERMINATE"); cbv zeta; cbn [fst].
        -- destruct (fst (input prompt_terminate (world st)));
             cbn [Py.truthy]; intros [= H].
        -- intros [= H].
      * split; [intros _; right; split; reflexivity|reflexivity].
  - intros message sender st m Ht Hlim Htyped.
    assert (Ha : String.eqb (mode st) "ALWAYS" = false).
    { apply String.eqb_eq in Ht. rewrite Ht. reflexivity. }
    set (st0 := logged (EvReceived m sender) st).
    assert (Hget : get_reply m sender st0
                   = (Return "exit",
                      State (self (touched sender st0))
                            (snd (input prompt_terminate (world st)))
                            (trace st0 ++ [EvInput prompt_terminate EmptyString]))).
    { rewrite get_reply_spec. unfold st0. cbn [logged self world].
      rewrite Ha, Ht.
      replace (counter_of (logged (EvReceived m sender) st) sender)
        with (counter_of st sender) by reflexivity.
      rewrite Hlim. cbv zeta. rewrite Htyped. reflexivity. }
    unfold after_receive. rewrite receive_unfold. fold m st0.
    rewrite (bind_return _ _ _ _ _ Hget).
    rewrite act_on_reply_stop by reflexivity.
    cbn [fst snd]. split; [reflexivity|]. split.
    + rewrite counter_of_with_counter. destruct (decide _); congruence.
    + unfold with_counter. cbn [trace st0 logged]. rewrite <- app_assoc. reflexivity.
Qed.

(** C10. In the mode [NEVER], on a message that ends the conversation,
    [receive] returns after the bookkeeping of the base class: it asks
    for no input and sends nothing (the only new event is the receipt),
    the world is untouched, and the counter of the sender is 0. *)
Theorem never_mode_stops_on_termination :
  forall message sender st,
    mode st = "NEVER" ->
    terminates st (normalize message) = true ->
    exists st',
      receive message sender st = (Return tt, st')
      /\ trace st' = trace st ++ [EvReceived (normalize message) sender]
      /\ world st' = world st
      /\ counters st' !! sender = Some 0.
Proof.
  intros message sender st Hmode Hterm.
  set (m := normalize message) in *.
  set (st0 := logged (EvReceived m sender) st).
  assert (Hget : get_reply m sender st0 = (Return "exit", touched sender st0)).
  { rewrite get_reply_spec. unfold st0. cbn [logged self]. rewrite Hmode, Hterm.
    rewrite orb_true_r. reflexivity. }
  exists (with_counter sender 0 (touched sender st0)).
  rewrite receive_unfold. fold m st0.
  rewrite (bind_return _ _ _ _ _ Hget).
  rewrite act_on_reply_stop by reflexivity.
  split; [reflexivity|].
  unfold with_counter, touched.
  destruct (counters st0 !! sender); cbn; rewrite lookup_insert_eq; auto.
Qed.

End TurnController.

(** ** The statements on concrete runs *)

Section Runs.

Import Demo.


(** C6 on 981 opening brackets, one more than the decoder of this
    interpreter can enter, and on an integer of 4301 digits. *)
Lemma extract_args_raises_beyond_decoder_limits_witness :
  _extract_args (Inputs.open_brackets 981%nat) idle
  = (Raise (Exception "RecursionError"
              "maximum recursion depth exceeded while decoding a JSON array from a unicode string"),
     idle)
  /\ _extract_args (Inputs.ones 4301%nat) idle
     = (Raise (Exception "ValueError"
                 "Exceeds the limit (4300 digits) for integer string conversion: value has 4301 digits; use sys.set_int_max_str_digits() to increase the limit"),
        idle).
Proof.
  split.
  - exact (proj1 (proj2 (extract_args_raises_beyond_decoder_limits idle))).
  - apply (proj2 (proj2 (extract_args_raises_beyond_decoder_limits idle)) 4301%nat).
    + apply Nat.ltb_lt. vm_compute. reflexivity.
    + split; apply Nat.ltb_lt; vm_compute; reflexivity.
Defined.

(** A text that is not JSON and within the limits: an opening brace
    alone gives the empty dict. *)
Example extract_args_of_an_opening_brace :
  Json.loads (_format_json_str "{") = Json.JSONDecodeError
  /\ _extract_args "{" idle = (Return (Json.JObj []), idle).
Proof. split; reflexivity. Qed.

(** C1 on the argument string [null] for the registered [add_num]. *)
Lemma execute_function_raises_on_non_dict_arguments_witness :
  _execute_function (FuncCall (Some "add_num") (Some "null")) idle
  = (Raise (Exception "AttributeError"
              "'NoneType' object has no attribute 'update'"), idle).
Proof.
  apply (execute_function_raises_on_non_dict_arguments
           (FuncCall (Some "add_num") (Some "null"))
           (FuncEntry None (Some add_num_func) None None) Json.JNull idle).
  - reflexivity.
  - reflexivity.
  - discriminate.
Defined.

(** C2 on a block in a language the agent does not know. *)
Lemma execute_code_unrecognized_language_raises_witness :
  _execute_code [("ruby", "puts 1")] idle
  = (Raise (Exception "ValueError"
              "not enough values to unpack (expected 3, got 2)"), idle).
Proof.
  apply (execute_code_unrecognized_language_raises ("ruby", "puts 1") [] idle).
  reflexivity.
Defined.

(** C9 on the directive that names [test.py]. *)
Lemma filename_directive_without_newline_is_truncated_witness :
  exists rs,
    trace (snd (execute_block ("python", "# filename: " +:+ "test.py") idle))
    = trace idle
      ++ [EvExecuteCode
            (ExecRequest ("# filename: " +:+ "test.py") (_work_dir (self idle))
                         (Some (Py.strip (Py.all_but_last "test.py")))
                         (_use_docker (self idle)) None) rs].
Proof.
  apply (proj1 filename_directive_without_newline_is_truncated "test.py" idle).
  - reflexivity.
  - discriminate.
Defined.


(** What that run returns: the exit code of the second block and the
    logs of the first two. *)
Example three_blocks_run :
  fst (_execute_code three_blocks idle)
  = Return (2, Py.chr Py.newline +:+ "ok" +:+ Py.chr Py.newline +:+ "failed")
  /\ length (trace (snd (_execute_code three_blocks idle))) = 2%nat.
Proof. split; reflexivity. Qed.

(** C8, as stated, fails on two shell blocks: the second call of the
    service gets the image the first call returned, not the flag the
    agent was built with. *)
Lemma use_docker_flag_is_overwritten :
  ~ sandbox_flag_is_kept never_fresh two_blocks.
Proof.
  intros H.
  specialize (H (ExecRequest "pwd" None None (DImage (Some "python:3-slim")) (Some "sh"))
                (ExecResponse 0 (bytes "ok") (Some "python:3-slim"))).
  assert (Hin : In (EvExecuteCode
                      (ExecRequest "pwd" None None (DImage (Some "python:3-slim"))
                                   (Some "sh"))
                      (ExecResponse 0 (bytes "ok") (Some "python:3-slim")))
                   (trace (snd (_execute_code two_blocks never_fresh)))).
  { right. left. reflexivity. }
  specialize (H Hin). discriminate H.
Qed.

(** C3, as stated, fails in the mode [NEVER] at the limit: the counter
    is reset although nobody typed anything and the message does not end
    the conversation. *)
Lemma counter_reset_without_named_occasion :
  ~ resets_only_when_named (Text "hi") "bob" never_at_limit.
Proof.
  intros H.
  assert (Hc : counter_of (after_receive (Text "hi") "bob" never_at_limit) "bob" = 0)
    by reflexivity.
  destruct (H Hc) as [[p Hin]|[(p & r & _ & Hin & _)|[Hterm _]]].
  - destruct Hin as [Heq|[]]. discriminate Heq.
  - destruct Hin as [Heq|[]]. discriminate Heq.
  - discriminate Hterm.
Qed.

(** C3 on two messages from [bob] to a fresh agent. *)
Lemma counter_is_reset_or_incremented_witness :
  counters_nonneg (after_receives [(Text "hi", "bob"); (Text "TERMINATE", "bob")]
                                  never_fresh).
Proof.
  apply (proj2 counter_is_reset_or_incremented).
  intros sender n H. vm_compute in H. discriminate H.
Defined.

(** C4, as stated, fails in the mode [TERMINATE] at the limit: the
    operator presses enter, and the counter is reset instead of growing. *)
Lemma empty_line_at_limit_stops :
  ~ empty_line_at_limit_auto_replies (Text "continue") "bob" terminate_at_limit.
Proof.
  intros H.
  assert (Hlim : _max_consecutive_auto_reply (self terminate_at_limit)
                 <= counter_of terminate_at_limit "bob")
    by (vm_compute; discriminate).
  specialize (H eq_refl Hlim eq_refl eq_refl).
  vm_compute in H. discriminate H.
Qed.

(** C4 on a message to a fresh agent in the mode [NEVER]. *)
Lemma empty_reply_leads_to_auto_reply_witness :
  receive (Text "hi") "bob" never_fresh
  = auto_reply (normalize (Text "hi")) "bob" EmptyString
      (logged (EvPrint no_human_input_message)
         (with_counter "bob" (counter_of never_fresh "bob" + 1)
            (touched "bob" (logged (EvReceived (normalize (Text "hi")) "bob")
                                   never_fresh))))
  /\ counter_of (after_receive (Text "hi") "bob" never_fresh) "bob"
     = counter_of never_fresh "bob" + 1.
Proof.
  apply (proj1 empty_reply_leads_to_auto_reply (Text "hi") "bob" never_fresh).
  - reflexivity.
  - reflexivity.
Defined.

(** C10 on the message [TERMINATE] to a fresh agent in the mode [NEVER]. *)
Lemma never_mode_stops_on_termination_witness :
  exists st',
    receive (Text "TERMINATE") "bob" never_fresh = (Return tt, st')
    /\ trace st' = trace never_fresh
                   ++ [EvReceived (normalize (Text "TERMINATE")) "bob"]
    /\ world st' = world never_fresh
    /\ _consecutive_auto_reply_counter (self st') !! "bob" = Some 0.
Proof.
  apply (never_mode_stops_on_termination (Text "TERMINATE") "bob" never_fresh).
  - reflexivity.
  - reflexivity.
Defined.

End Runs.


(** ** More on [_format_json_str] *)

Section Formatter.

Lemma has_char_append (c : ascii) (a b : string) :
  Inputs.has_char c (a +:+ b) = Inputs.has_char c a || Inputs.has_char c b.
Proof.
  induction a as [|x a IH]; [reflexivity|].
  rewrite append_cons. simpl. rewrite IH. apply orb_assoc.
Qed.

(** The result list only grows at its end. *)
Lemma format_loop_acc (jstr : string) :
  forall inside_quotes last_char result,
    format_loop jstr inside_quotes last_char result
    = result ++ format_loop jstr inside_quotes last_char [].
Proof.
  induction jstr as [|c jstr IH]; intros iq lc acc; cbn [format_loop].
  - rewrite app_nil_r. reflexivity.
  - cbv zeta. destruct (negb _ && Ascii.eqb c Py.newline).
    + apply IH.
    + rewrite IH. rewrite (IH _ _ ([] ++ _)). rewrite app_assoc. reflexivity.
Qed.

Lemma join_app (a b : list string) : Py.join (a ++ b) = Py.join a +:+ Py.join b.
Proof.
  induction a as [|x a IH]; [reflexivity|].
  cbn [app Py.join foldr]. fold (Py.join (a ++ b)). fold (Py.join a).
  rewrite IH, append_assoc. reflexivity.
Qed.

Lemma format_loop_has_no_newline (jstr : string) :
  forall inside_quotes last_char,
    Inputs.has_char Py.newline
      (Py.join (format_loop jstr inside_quotes last_char [])) = false.
Proof.
  induction jstr as [|c jstr IH]; intros iq lc; [reflexivity|].
  cbn [format_loop]. cbv zeta.
  set (iq' := if negb (Ascii.eqb lc Py.backslash) && Ascii.eqb c Py.dquote
              then negb iq else iq).
  destruct (Ascii.eqb c Py.newline) eqn:Hnl.
  - destruct iq'; cbn [negb andb].
    + rewrite format_loop_acc, join_app, has_char_append, IH. reflexivity.
    + apply IH.
  - rewrite !andb_false_r.
    rewrite format_loop_acc, join_app, has_char_append, IH, orb_false_r.
    destruct (iq' && String.eqb (Py.chr c) (Py.chr Py.tab)); [reflexivity|].
    change (Py.join ([] ++ [Py.chr c])) with (Py.chr c +:+ EmptyString).
    rewrite append_empty_r. cbn. rewrite Hnl. reflexivity.
Qed.

(** X1. Whatever the input, the normalised string holds no newline: a
    newline outside the quotes is dropped and one inside is written as an
    escape. *)
Theorem format_json_str_has_no_newline :
  forall jstr, Inputs.has_char Py.newline (_format_json_str jstr) = false.
Proof.
  intros jstr. unfold _format_json_str. apply format_loop_has_no_newline.
Qed.

(** X2. A text without newline and without tab is left as it is. *)
Theorem format_json_str_keeps_plain_text :
  forall jstr,
    Inputs.has_char Py.newline jstr = false ->
    Inputs.has_char Py.tab jstr = false ->
    _format_json_str jstr = jstr.
Proof.
  intros jstr Hnl Htab. unfold _format_json_str.
  rewrite (format_loop_plain jstr Hnl Htab). reflexivity.
Qed.

Lemma format_loop_outside (jstr : string) :
  Inputs.has_char Py.dquote jstr = false ->
  forall last_char,
    Py.join (format_loop jstr false last_char []) = without_newlines jstr.
Proof.
  induction jstr as [|c jstr IH]; intros Hq lc; [reflexivity|].
  simpl in Hq. apply orb_false_iff in Hq as [Hc Hq].
  cbn [format_loop without_newlines]. cbv zeta.
  rewrite Hc, andb_false_r. cbn [negb andb].
  destruct (Ascii.eqb c Py.newline).
  - apply IH, Hq.
  - rewrite format_loop_acc, join_app, (IH Hq). reflexivity.
Qed.

(** X3. From a text without double quote exactly the newlines are
    removed; every other character, tabs included, stays in place. *)
Theorem format_json_str_drops_newlines_outside_quotes :
  forall jstr,
    Inputs.has_char Py.dquote jstr = false ->
    _format_json_str jstr = without_newlines jstr.
Proof.
  intros jstr Hq. unfold _format_json_str. apply format_loop_outside, Hq.
Qed.

Lemma format_loop_inside (body tail : string) :
  Inputs.has_char Py.dquote body = false ->
  forall last_char,
  exists last_char',
    Py.join (format_loop (body +:+ tail) true last_char [])
    = escaped body +:+ Py.join (format_loop tail true last_char' []).
Proof.
  induction body as [|c body IH]; intros Hq lc.
  - exists lc. reflexivity.
  - simpl in Hq. apply orb_false_iff in Hq as [Hc Hq].
    rewrite append_cons. cbn [format_loop escaped]. cbv zeta.
    rewrite Hc, andb_false_r. cbn [negb andb].
    destruct (IH Hq c) as [lc' Hlc'].
    exists lc'. rewrite (format_loop_acc (body +:+ tail)). rewrite join_app.
    rewrite Hlc'.
    destruct (Ascii.eqb c Py.newline) eqn:Hnl; [reflexivity|].
    destruct (Ascii.eqb c Py.tab) eqn:Htab.
    + apply Ascii.eqb_eq in Htab. subst c. reflexivity.
    + assert (Hs : String.eqb (Py.chr c) (Py.chr Py.tab) = false).
      { unfold Py.chr. simpl. rewrite Htab. reflexivity. }
      rewrite Hs. reflexivity.
Qed.

Lemma format_loop_closing_quote (inside_quotes : bool) (last_char : ascii) :
  Py.join (format_loop (Py.chr Py.dquote) inside_quotes last_char [])
  = Py.chr Py.dquote.
Proof.
  cbn [format_loop Py.chr]. cbv zeta.
  destruct (negb (Ascii.eqb last_char Py.backslash) && _), inside_quotes;
    reflexivity.
Qed.

(** X4. In a string literal whose body holds no double quote, every
    newline and every tab of the body is written as its two-character
    escape and nothing else changes. *)
Theorem format_json_str_escapes_inside_quotes :
  forall body,
    Inputs.has_char Py.dquote body = false ->
    _format_json_str (Py.quoted body) = Py.quoted (escaped body).
Proof.
  intros body Hq. unfold _format_json_str, Py.quoted.
  unfold Py.chr at 1. rewrite append_cons, append_empty_l.
  assert (Hopen : forall s,
             format_loop (String Py.dquote s) false " " []
             = format_loop s true Py.dquote [Py.chr Py.dquote])
    by reflexivity.
  rewrite Hopen, format_loop_acc, join_app.
  destruct (format_loop_inside body (Py.chr Py.dquote) Hq Py.dquote) as [lc' H].
  rewrite H, format_loop_closing_quote. reflexivity.
Qed.

End Formatter.

(** ** More on [_execute_function] *)

Section FunctionDispatch.

Context `{Ext : Externals}.

Lemma dict_get_set {V} (d : list (list N * V)) (k k' : list N) (v : V) :
  dict_get (Json.dict_set d k v) k'
  = if decide (k = k') then Some v else dict_get d k'.
Proof.
  induction d as [|[k0 v0] d IH]; cbn [Json.dict_set dict_get].
  - destruct (decide (k = k')); reflexivity.
  - destruct (decide (k0 = k)) as [->|Hne]; cbn [dict_get].
    + destruct (decide (k = k')); reflexivity.
    + rewrite IH. destruct (decide (k0 = k')) as [->|Hne'].
      * destruct (decide (k = k')); [congruence|reflexivity].
      * reflexivity.
Qed.

Lemma dict_get_app {V} (a b : list (list N * V)) (k : list N) :
  dict_get (a ++ b) k
  = match dict_get a k with
    | Some v => Some v
    | None => dict_get b k
    end.
Proof.
  induction a as [|[k0 v0] a IH]; [reflexivity|].
  cbn [app dict_get]. destruct (decide (k0 = k)); [reflexivity|apply IH].
Qed.

Lemma dict_get_update {V} (other : list (list N * V)) :
  forall (d : list (list N * V)) (k : list N),
    dict_get (Json.dict_update d other) k
    = match dict_get (rev other) k with
      | Some v => Some v
      | None => dict_get d k
      end.
Proof.
  unfold Json.dict_update.
  induction other as [|[k1 v1] other IH]; intros d k; [reflexivity|].
  cbn [fold_left fst snd rev]. rewrite IH, dict_get_app, dict_get_set.
  destruct (dict_get (rev other) k); [reflexivity|].
  cbn [dict_get]. destruct (decide (k1 = k)); reflexivity.
Qed.

Lemma resolve_state (fd : func_entry) (st : state) : snd (resolve fd st) = st.
Proof.
  unfold resolve. destruct (fe_class fd) as [obj|].
  - destruct (fe_func_name fd) as [n|]; [|reflexivity].
    destruct (obj_getattr obj n); reflexivity.
  - destruct (fe_function fd); reflexivity.
Qed.

Lemma extract_args_parsed (input_string : string)
    (pairs : list (list N * Json.value)) (st : state) :
  parsed_arguments input_string = Some pairs ->
  _extract_args input_string st = (Return (Json.JObj pairs), st).
Proof.
  unfold parsed_arguments. intros H. rewrite extract_args_outcome.
  destruct (Json.loads _) as [v| | |];
    [|injection H as <-; reflexivity|discriminate H|discriminate H].
  destruct v; try discriminate H. injection H as <-. reflexivity.
Qed.

(** A registered name whose arguments are a dict: what the method does
    once the callable is selected, or when selecting it raises. *)
Lemma execute_function_registered (fc : func_call) (fd : func_entry)
    (pairs : list (list N * Json.value)) (st : state) :
  let func_name := default EmptyString (fc_name fc) in
  _function_map (self st) !! func_name = Some fd ->
  parsed_arguments (default EmptyString (fc_arguments fc)) = Some pairs ->
  _execute_function fc st
  = match fst (resolve fd st) with
    | Return f => call_outcome func_name f (merged_arguments pairs fd) st
    | Raise e =>
        (Return (false, FuncReturn func_name "function" ("Error: " +:+ exn_message e)),
         st)
    end.
Proof.
  cbv zeta. intros Hreg Hparsed.
  unfold _execute_function. rewrite bind_get_self, Hreg.
  unfold bind at 1.
  rewrite (bind_return _ _ st st _ (extract_args_parsed _ _ st Hparsed)).
  erewrite (bind_return (update _ _)) by reflexivity.
  fold (merged_arguments pairs fd).
  pose proof (resolve_state fd st) as Hst.
  unfold try_except, bind at 1, call_outcome.
  destruct (resolve fd st) as [[f|e] st1]; cbn [fst snd] in *; subst st1.
  - unfold bind, call, ret.
    destruct (f (merged_arguments pairs fd) (world st)) as [[v|e] w]; reflexivity.
  - reflexivity.
Qed.

(** X5. For a name that is not in the registry the method returns the
    failure pair whose content names the function, and nothing else
    happens: no callable is invoked and the state is as before. *)
Theorem execute_function_unknown_name :
  forall fc st,
    _function_map (self st) !! default EmptyString (fc_name fc) = None ->
    _execute_function fc st
    = (Return (false,
               FuncReturn (default EmptyString (fc_name fc)) "function"
                 ("Error: Function " +:+ default EmptyString (fc_name fc)
                  +:+ " not found.")),
       st).
Proof.
  intros fc st H. unfold _execute_function. rewrite bind_get_self, H. reflexivity.
Qed.

(** X6. For an entry with a function, when the arguments are a dict (or
    the decoder raises [JSONDecodeError], which gives the empty dict), the
    function is called once with the merged arguments:
    if it returns a value the result is the success pair with [str] of the
    value, if it raises the result is the failure pair with the message of
    the exception; either way the method returns, and the only change of
    state is what the function did to the world. *)
Theorem execute_function_direct :
  forall fc fd f pairs st,
    _function_map (self st) !! default EmptyString (fc_name fc) = Some fd ->
    fe_class fd = None ->
    fe_function fd = Some f ->
    parsed_arguments (default EmptyString (fc_arguments fc)) = Some pairs ->
    _execute_function fc st
    = call_outcome (default EmptyString (fc_name fc)) f (merged_arguments pairs fd) st.
Proof.
  intros fc fd f pairs st Hreg Hclass Hfun Hparsed.
  rewrite (execute_function_registered fc fd pairs st Hreg Hparsed).
  unfold resolve. rewrite Hclass, Hfun. reflexivity.
Qed.

(** X7. In the merged arguments a key bound in the entry under ["args"]
    has the bound value, whatever the caller sent for it; any other key
    has the value the caller sent. *)
Theorem bound_arguments_take_precedence :
  forall pairs fd k,
    dict_get (merged_arguments pairs fd) k
    = match dict_get (rev (default [] (fe_args fd))) k with
      | Some v => Some v
      | None => option_map AJson (dict_get pairs k)
      end.
Proof.
  intros pairs fd k. unfold merged_arguments. rewrite dict_get_update.
  destruct (dict_get (rev _) k); [reflexivity|].
  induction pairs as [|[k0 v0] pairs IH]; [reflexivity|].
  cbn [map dict_get fst snd]. destruct (decide (k0 = k)); [reflexivity|apply IH].
Qed.

(** The default of a missing ["arguments"] key, the empty text, makes
    the decoder raise [JSONDecodeError]. *)
Lemma empty_text_does_not_decode :
  Json.loads (_format_json_str EmptyString) = Json.JSONDecodeError.
Proof. reflexivity. Qed.

(** X8. When [json.loads] raises [JSONDecodeError] on the normalised
    argument text, the callable is still called: with the arguments bound
    in the entry and no other. *)
Theorem execute_function_when_arguments_do_not_decode :
  forall fc fd f st,
    _function_map (self st) !! default EmptyString (fc_name fc) = Some fd ->
    fst (resolve fd st) = Return f ->
    Json.loads (_format_json_str (default EmptyString (fc_arguments fc)))
    = Json.JSONDecodeError ->
    _execute_function fc st
    = call_outcome (default EmptyString (fc_name fc)) f
        (Json.dict_update [] (default [] (fe_args fd))) st.
Proof.
  intros fc fd f st Hreg Hres Hargs.
  assert (Hparsed : parsed_arguments (default EmptyString (fc_arguments fc)) = Some []).
  { unfold parsed_arguments. rewrite Hargs. reflexivity. }
  rewrite (execute_function_registered fc fd [] st Hreg Hparsed), Hres.
  reflexivity.
Qed.

(** X9. For an entry with an object and no ["func_name"], the object is
    not called: [getattr] is given the name [None] and raises, the
    exception is caught, and the method returns a failure pair; the state
    is as before. *)
Theorem execute_function_class_without_func_name :
  forall fc fd obj pairs st,
    _function_map (self st) !! default EmptyString (fc_name fc) = Some fd ->
    fe_class fd = Some obj ->
    fe_func_name fd = None ->
    parsed_arguments (default EmptyString (fc_arguments fc)) = Some pairs ->
    exists content,
      _execute_function fc st
      = (Return (false,
                 FuncReturn (default EmptyString (fc_name fc)) "function" content),
         st)
      /\ Py.startswith content "Error: " = true.
Proof.
  intros fc fd obj pairs st Hreg Hclass Hname Hparsed.
  rewrite (execute_function_registered fc fd pairs st Hreg Hparsed).
  unfold resolve. rewrite Hclass, Hname. cbn [fst raise exn_message].
  eexists. split; [reflexivity|apply startswith_append].
Qed.

(** X10. For an entry with an object and a ["func_name"], the attribute of
    that name is called when the object has it, and the object itself
    otherwise; the result is built as for a function. *)
Theorem execute_function_class_method :
  forall fc fd obj func_name pairs st,
    _function_map (self st) !! default EmptyString (fc_name fc) = Some fd ->
    fe_class fd = Some obj ->
    fe_func_name fd = Some func_name ->
    parsed_arguments (default EmptyString (fc_arguments fc)) = Some pairs ->
    _execute_function fc st
    = call_outcome (default EmptyString (fc_name fc))
        (default (obj_call obj) (obj_getattr obj func_name))
        (merged_arguments pairs fd) st.
Proof.
  intros fc fd obj n pairs st Hreg Hclass Hname Hparsed.
  rewrite (execute_function_registered fc fd pairs st Hreg Hparsed).
  unfold resolve. rewrite Hclass, Hname.
  destruct (obj_getattr obj n); reflexivity.
Qed.

End FunctionDispatch.

(** ** The constructor and the registry *)

Section Registry.

Context `{Ext : Externals}.

Lemma entry_is_valid_iff (e : func_entry) :
  entry_is_valid e = true
  <-> (fe_class e <> None /\ fe_function e = None)
      \/ (fe_class e = None /\ fe_function e <> None).
Proof.
  unfold entry_is_valid.
  destruct (fe_class e), (fe_function e); cbn; split; intros H;
    try discriminate H; try reflexivity.
  - destruct H as [[_ H]|[H _]]; discriminate H.
  - left. split; [discriminate|reflexivity].
  - right. split; [reflexivity|discriminate].
  - destruct H as [[H _]|[_ H]]; congruence.
Qed.

Lemma registry_check (function_map : gmap string func_entry) :
  forallb (fun kv => entry_is_valid (snd kv)) (map_to_list function_map) = true
  <-> forall name e, function_map !! name = Some e -> entry_is_valid e = true.
Proof.
  rewrite forallb_forall. split.
  - intros H name e Hl.
    apply (H (name, e)). apply list_elem_of_In, elem_of_map_to_list, Hl.
  - intros H [name e] Hin.
    apply list_elem_of_In, elem_of_map_to_list in Hin. exact (H name e Hin).
Qed.

(** X11. The constructor returns an agent exactly when every entry of
    [function_map] has one of the keys ["class"] and ["function"] and not
    the other; otherwise it raises [AssertionError]. The agent it returns
    has no counter yet, the limit 100 unless one was given, the given flag
    in [_use_docker] and the given registry. *)
Theorem init_checks_the_registry :
  forall work_dir mode function_map limit is_termination_msg use_docker,
    ((forall name e, function_map !! name = Some e -> entry_is_valid e = true) ->
     exists a,
       __init__ work_dir mode function_map limit is_termination_msg use_docker
       = Return a
       /\ _consecutive_auto_reply_counter a = ∅
       /\ _max_consecutive_auto_reply a = default 100 limit
       /\ _use_docker a = DBool use_docker
       /\ _function_map a = function_map
       /\ _human_input_mode a = mode
       /\ _work_dir a = work_dir)
    /\ (forall name e,
          function_map !! name = Some e ->
          entry_is_valid e = false ->
          __init__ work_dir mode function_map limit is_termination_msg use_docker
          = Raise (Exception "AssertionError"
                     "only one of 'class' and 'function' can exist in a function config.")).
Proof.
  intros wd mode fm lim term ud. unfold __init__. split.
  - intros H. rewrite (proj2 (registry_check fm) H).
    eexists. split; [reflexivity|]. destruct lim; repeat split; reflexivity.
  - intros name e Hl Hbad.
    destruct (forallb _ _) eqn:Hall; [|reflexivity].
    rewrite (proj1 (registry_check fm) Hall name e Hl) in Hbad. discriminate Hbad.
Qed.

End Registry.

(** ** More on [_execute_code] *)

Section MoreCodeExecution.

Context `{Ext : Externals}.

(** X12. When the log of a recognized block is not UTF-8, [_execute_code]
    raises the [UnicodeDecodeError] of [logs.decode], with the text the
    codec gives for these bytes, after the service has run the block: the
    call is in the trace and the world is what the service left, but the
    image is not stored and no later block is run. *)
Theorem execute_code_undecodable_log_raises :
  forall code_block rest st,
    recognized code_block = true ->
    decode_utf8
      (rs_logs (fst (execute_code (request_for (self st) code_block) (world st))))
    = None ->
    _execute_code (code_block :: rest) st
    = (Raise (Exception "UnicodeDecodeError"
                (describe
                   (UndecodableBytes
                      (rs_logs (fst (execute_code (request_for (self st) code_block)
                                                  (world st))))))),
       State (self st)
             (snd (execute_code (request_for (self st) code_block) (world st)))
             (trace st
              ++ [EvExecuteCode
                    (request_for (self st) code_block)
                    (fst (execute_code (request_for (self st) code_block) (world st)))])).
Proof.
  intros b rest st Hrec Hdec. unfold _execute_code. cbn [execute_code_loop].
  apply bind_raise. rewrite (execute_block_recognized b st Hrec). cbv zeta.
  rewrite Hdec. reflexivity.
Qed.

Lemma same_configuration_refl (a : agent) : same_configuration a a.
Proof. unfold same_configuration. repeat split; reflexivity. Qed.

Lemma same_configuration_set_use_docker (a : agent) (d : docker image) :
  same_configuration a (set_use_docker a d).
Proof. unfold same_configuration. repeat split; reflexivity. Qed.

Lemma same_configuration_trans (a b c : agent) :
  same_configuration a b -> same_configuration b c -> same_configuration a c.
Proof.
  unfold same_configuration.
  intros (H1 & H2 & H3 & H4 & H5) (K1 & K2 & K3 & K4 & K5).
  repeat split; congruence.
Qed.

Lemma execute_code_loop_frame (code_blocks : list (string * string)) :
  forall st exitcode logs_all,
    same_configuration (self st)
      (self (snd (execute_code_loop code_blocks exitcode logs_all st)))
    /\ _consecutive_auto_reply_counter
         (self (snd (execute_code_loop code_blocks exitcode logs_all st)))
       = _consecutive_auto_reply_counter (self st)
    /\ exists calls,
         trace (snd (execute_code_loop code_blocks exitcode logs_all st))
         = trace st ++ exec_events calls
         /\ (length calls <= length code_blocks)%nat.
Proof.
  induction code_blocks as [|b rest IH]; intros st exitcode logs_all.
  - cbn [execute_code_loop].
    assert (Hst : snd (match exitcode with
                       | Some e => ret (e, logs_all)
                       | None => raise (Exception "UnboundLocalError"
                           (describe (UnboundLocal "exitcode")))
                       end st) = st) by (destruct exitcode; reflexivity).
    rewrite Hst. split; [apply same_configuration_refl|]. split; [reflexivity|].
    exists []. rewrite app_nil_r. split; [reflexivity|cbn; lia].
  - cbn [execute_code_loop]. unfold bind at 1 2 3.
    destruct (recognized b) eqn:Hrec.
    + rewrite (execute_block_recognized b st Hrec). cbv zeta.
      set (rq := request_for (self st) b).
      set (rs := fst (execute_code rq (world st))).
      set (w := snd (execute_code rq (world st))).
      destruct (decode_utf8 (rs_logs rs)) as [logs|].
      * destruct (negb (rs_exitcode rs =? 0)).
        -- cbn [snd ret self trace].
           split; [apply same_configuration_set_use_docker|]. split; [reflexivity|].
           exists [(rq, rs)]. split; [reflexivity|cbn; lia].
        -- destruct (IH (State (set_use_docker (self st) (DImage (rs_image rs))) w
                               (trace st ++ [EvExecuteCode rq rs]))
                        (Some (rs_exitcode rs))
                        (logs_all +:+ Py.chr Py.newline +:+ logs))
             as (Hcfg & Hcnt & calls & Htr & Hlen).
           split; [|split; [exact Hcnt|]].
           ++ eapply same_configuration_trans; [|exact Hcfg].
              apply same_configuration_set_use_docker.
           ++ exists ((rq, rs) :: calls). split.
              ** rewrite Htr. cbn [trace exec_events map fst snd].
                 rewrite <- app_assoc. reflexivity.
              ** cbn [length]. lia.
      * cbn [snd self trace].
        split; [apply same_configuration_refl|]. split; [reflexivity|].
        exists [(rq, rs)]. split; [reflexivity|cbn; lia].
    + rewrite (execute_block_unrecognized b st Hrec). cbn [snd].
      split; [apply same_configuration_refl|]. split; [reflexivity|].
      exists []. rewrite app_nil_r. split; [reflexivity|cbn; lia].
Qed.

(** X13. Whatever the blocks and whether it returns or raises,
    [_execute_code] leaves the working directory, the mode, the
    termination predicate, the limit, the registry and the counters as
    they were, adds only calls of the execution service to the trace, and
    makes at most one call for each block. *)
Theorem execute_code_frame :
  forall code_blocks st,
    same_configuration (self st) (self (snd (_execute_code code_blocks st)))
    /\ _consecutive_auto_reply_counter (self (snd (_execute_code code_blocks st)))
       = _consecutive_auto_reply_counter (self st)
    /\ exists calls,
         trace (snd (_execute_code code_blocks st)) = trace st ++ exec_events calls
         /\ (length calls <= length code_blocks)%nat.
Proof.
  intros code_blocks st. apply execute_code_loop_frame.
Qed.

(** A block without a language tag is run exactly as the same source
    tagged with the language [infer_lang] finds for it. *)
Theorem untagged_block_runs_as_inferred :
  forall code st,
    execute_block (EmptyString, code) st = execute_block (infer_lang code, code) st.
Proof.
  intros code st. unfold execute_block. cbn [Py.truthy negb].
  destruct (infer_lang code) eqn:H; cbn [Py.truthy negb]; rewrite ?H; reflexivity.
Qed.

End MoreCodeExecution.

(** ** More on [auto_reply] *)

Section AutoReply.

Context `{Ext : Externals}.

(** Whether the extractor found no code: one block, tagged [UNKNOWN]. *)
Lemma no_code_test (c : string) :
  (length [(UNKNOWN, c)] =? 1)%nat && String.eqb UNKNOWN UNKNOWN = true.
Proof. rewrite String.eqb_refl. reflexivity. Qed.

(** X14. For a message with a ["function_call"], [auto_reply] sends what
    [_execute_function] returned for it, success or failure, and nothing
    else: the content of the message is not searched for code and no code
    is executed. When [_execute_function] raises, nothing is sent. *)
Theorem auto_reply_function_call :
  forall m fc sender default_reply st,
    msg_function_call m = Some fc ->
    auto_reply m sender default_reply st
    = match _execute_function fc st with
      | (Return (_, func_return), st1) =>
          (Return tt, logged (EvSend (OutFunction func_return) sender) st1)
      | (Raise e, st1) => (Raise e, st1)
      end
    /\ count is_execution
         (drop (length (trace st))
               (trace (snd (auto_reply m sender default_reply st)))) = 0%nat.
Proof.
  intros m fc sender d st Hfc. unfold auto_reply. rewrite Hfc.
  destruct (execute_function_frame fc st) as [_ Htr].
  unfold bind.
  destruct (_execute_function fc st) as [[[ok fr]|e] st1]; cbn [snd] in *.
  - split; [reflexivity|]. unfold _send, emit. cbn [snd trace].
    rewrite Htr, drop_app_length. reflexivity.
  - split; [reflexivity|]. rewrite Htr, drop_all. reflexivity.
Qed.

(** X15. When the message has no ["function_call"] and the extractor finds
    no code in its content, [auto_reply] sends [default_reply] as it is,
    the empty string included, and changes nothing else. *)
Theorem auto_reply_without_code :
  forall m text c sender default_reply st,
    msg_function_call m = None ->
    msg_content m = Some text ->
    extract_code text = [(UNKNOWN, c)] ->
    auto_reply m sender default_reply st
    = (Return tt, logged (EvSend (OutText default_reply) sender) st).
Proof.
  intros m text c sender d st Hfc Hc Hx. unfold auto_reply.
  rewrite Hfc, Hc, Hx, no_code_test. reflexivity.
Qed.

(** X16. When the extractor finds code, [auto_reply] runs the blocks and,
    if [_execute_code] returns, sends one message: the exit code, whether
    the execution succeeded (exit code 0) or failed, and the aggregate
    log. If [_execute_code] raises, so does [auto_reply], and nothing is
    sent. *)
Theorem auto_reply_reports_execution :
  forall m text sender default_reply st,
    msg_function_call m = None ->
    msg_content m = Some text ->
    (length (extract_code text) =? 1)%nat
    && match extract_code text with
       | (lang, _) :: _ => String.eqb lang UNKNOWN
       | [] => false
       end = false ->
    auto_reply m sender default_reply st
    = match _execute_code (extract_code text) st with
      | (Return (exitcode, logs), st1) =>
          (Return tt,
           logged (EvSend (OutText (execution_report exitcode logs)) sender) st1)
      | (Raise e, st1) => (Raise e, st1)
      end.
Proof.
  intros m text sender d st Hfc Hc Hx. unfold auto_reply.
  rewrite Hfc, Hc, Hx. unfold bind.
  destruct (_execute_code (extract_code text) st) as [[[e logs]|e] st1];
    reflexivity.
Qed.

(** X17. A message with neither ["function_call"] nor ["content"] makes
    [auto_reply] raise [KeyError] before anything happens: nothing is
    sent, nothing is executed and the state is as before. *)
Theorem auto_reply_raises_without_content :
  forall m sender default_reply st,
    msg_function_call m = None ->
    msg_content m = None ->
    auto_reply m sender default_reply st
    = (Raise (Exception "KeyError" "'content'"), st).
Proof.
  intros m sender d st Hfc Hc. unfold auto_reply. rewrite Hfc, Hc. reflexivity.
Qed.

End AutoReply.

(** ** More on [receive] *)

Section Turns.

Context `{Ext : Externals}.

Local Abbreviation counters st := (_consecutive_auto_reply_counter (self st)).
Local Abbreviation mode st := (_human_input_mode (self st)).
Local Abbreviation limit st := (_max_consecutive_auto_reply (self st)).
Local Abbreviation terminates st m := (_is_termination_msg (self st) m).

Lemma count_app (kind : event -> bool) (a b : list event) :
  count kind (a ++ b) = (count kind a + count kind b)%nat.
Proof. induction a as [|e a IH]; cbn [app count]; [reflexivity|]. rewrite IH. lia. Qed.

Lemma count_exec_events (kind : event -> bool)
    (calls : list (exec_request image * exec_response image)) :
  (forall rq rs, kind (EvExecuteCode rq rs) = false) ->
  count kind (exec_events calls) = 0%nat.
Proof.
  intros H. induction calls as [|[rq rs] calls IH]; [reflexivity|].
  cbn [exec_events map count fst snd]. rewrite H. exact IH.
Qed.

(** What [auto_reply] adds to the trace and leaves of the agent. *)
Lemma auto_reply_events (m : msg) (sender default_reply : string) (st : state) :
  exists evs,
    trace (snd (auto_reply m sender default_reply st)) = trace st ++ evs
    /\ count is_input evs = 0%nat
    /\ (count is_send evs <= 1)%nat
    /\ same_configuration (self st) (self (snd (auto_reply m sender default_reply st))).
Proof.
  unfold auto_reply.
  destruct (msg_function_call m) as [fc|].
  - destruct (execute_function_frame fc st) as [Hself Htr]. unfold bind.
    destruct (_execute_function fc st) as [[[ok fr]|e] st1]; cbn [snd] in *.
    + exists [EvSend (OutFunction fr) sender]. unfold _send, emit. cbn [snd trace self].
      rewrite Htr, Hself. repeat split; try reflexivity; cbn; lia.
    + exists []. rewrite Htr, Hself, app_nil_r.
      repeat split; try reflexivity; cbn; lia.
  - destruct (msg_content m) as [text|].
    + destruct (_ && _).
      * exists [EvSend (OutText default_reply) sender].
        repeat split; try reflexivity; cbn; lia.
      * destruct (execute_code_frame (extract_code text) st)
          as (Hcfg & _ & calls & Htr & _).
        unfold bind.
        destruct (_execute_code (extract_code text) st) as [[[e logs]|e] st1];
          cbn [snd] in *.
        -- exists (exec_events calls ++ [EvSend (OutText (execution_report e logs)) sender]).
           unfold _send, emit. cbn [snd trace self]. rewrite Htr, app_assoc.
           split; [reflexivity|]. rewrite !count_app, !count_exec_events by reflexivity.
           split; [reflexivity|]. split; [cbn; lia|exact Hcfg].
        -- exists (exec_events calls). rewrite Htr.
           split; [reflexivity|]. rewrite !count_exec_events by reflexivity.
           split; [reflexivity|]. split; [lia|exact Hcfg].
    + exists []. rewrite app_nil_r. repeat split; try reflexivity; cbn; lia.
Qed.

Lemma same_configuration_with_counter (sender : string) (n : Z) (st : state) :
  same_configuration (self st) (self (with_counter sender n st)).
Proof. unfold same_configuration. repeat split; reflexivity. Qed.

Lemma same_configuration_touched (sender : string) (st : state) :
  same_configuration (self st) (self (touched sender st)).
Proof.
  unfold touched. destruct (counters st !! sender);
    unfold same_configuration; repeat split; reflexivity.
Qed.

(** What [act_on_reply] adds to the trace and leaves of the agent. *)
Lemma act_on_reply_events (m : msg) (sender reply : string) (st : state) :
  exists evs,
    trace (snd (act_on_reply m sender reply st)) = trace st ++ evs
    /\ count is_input evs = 0%nat
    /\ (count is_send evs <= 1)%nat
    /\ same_configuration (self st) (self (snd (act_on_reply m sender reply st))).
Proof.
  destruct (String.eqb reply "exit" || (terminates st m && negb (Py.truthy reply)))
    eqn:Hstop.
  - rewrite (act_on_reply_stop _ _ _ _ Hstop). exists []. cbn [snd].
    rewrite app_nil_r. split; [reflexivity|]. split; [reflexivity|].
    split; [cbn; lia|apply same_configuration_with_counter].
  - destruct (Py.truthy reply) eqn:Htruthy.
    + rewrite (act_on_reply_human m sender reply st
                 ltac:(rewrite Htruthy; exact Hstop) Htruthy).
      exists [EvSend (OutText reply) sender]. cbn [snd].
      split; [reflexivity|]. split; [reflexivity|].
      split; [cbn; lia|apply same_configuration_with_counter].
    + apply orb_false_iff in Hstop as [_ Hterm].
      cbn [negb] in Hterm. rewrite andb_true_r in Hterm.
      rewrite (act_on_reply_auto _ _ _ _ Hterm Htruthy).
      set (st2 := logged _ _).
      destruct (auto_reply_events m sender EmptyString st2)
        as (evs & Htr & Hin & Hsend & Hcfg).
      exists (EvPrint no_human_input_message :: evs).
      rewrite Htr. subst st2. cbn [logged trace with_counter].
      rewrite <- app_assoc. split; [reflexivity|].
      cbn [count is_input is_send]. split; [exact Hin|]. split; [exact Hsend|].
      eapply same_configuration_trans; [|exact Hcfg].
      apply (same_configuration_with_counter sender _ st).
Qed.

(** The state [get_reply] leaves: one more event when it asks. *)
Lemma get_reply_events (m : msg) (sender : string) (st : state) :
  trace (snd (get_reply m sender st))
  = trace st
    ++ (if String.eqb (mode st) "ALWAYS"
        then [EvInput prompt_always (fst (input prompt_always (world st)))]
        else if solicits m sender st
        then [EvInput prompt_terminate (fst (input prompt_terminate (world st)))]
        else [])
  /\ same_configuration (self st) (self (snd (get_reply m sender st))).
Proof.
  rewrite get_reply_spec. unfold solicits.
  pose proof (same_configuration_touched sender st) as Ht.
  assert (Htr : trace (touched sender st) = trace st).
  { unfold touched. destruct (counters st !! sender); reflexivity. }
  destruct (String.eqb (mode st) "ALWAYS"); cbn [orb snd trace self].
  { split; [reflexivity|apply same_configuration_refl]. }
  destruct (String.eqb (mode st) "TERMINATE"); cbn [andb].
  - destruct (_ || _); cbv zeta; cbn [snd trace self].
    + split; [reflexivity|exact Ht].
    + rewrite Htr, app_nil_r. split; [reflexivity|exact Ht].
  - destruct (_ || _); cbn [snd]; rewrite Htr, app_nil_r;
      (split; [reflexivity|exact Ht]).
Qed.

(** The events of a turn: the receipt, the prompt if there is one, and
    what the reply leads to. *)
Lemma receive_events (message : message) (sender : string) (st : state) :
  let m := normalize message in
  exists evs,
    turn_events message sender st
    = EvReceived m sender
      :: (if String.eqb (mode st) "ALWAYS"
          then [EvInput prompt_always (fst (input prompt_always (world st)))]
          else if solicits m sender st
          then [EvInput prompt_terminate (fst (input prompt_terminate (world st)))]
          else [])
      ++ evs
    /\ count is_input evs = 0%nat
    /\ (count is_send evs <= 1)%nat
    /\ same_configuration (self st) (self (after_receive message sender st)).
Proof.
  cbv zeta. unfold turn_events, after_receive. rewrite receive_unfold.
  set (m := normalize message). set (st0 := logged (EvReceived m sender) st).
  destruct (get_reply_events m sender st0) as [Htr0 Hcfg0].
  destruct (get_reply_frame m sender st0) as (_ & _ & _ & reply & Hreply).
  destruct (get_reply m sender st0) as [r st1] eqn:Hget.
  cbn [fst snd] in *. subst r.
  rewrite (bind_return _ _ _ _ _ Hget).
  destruct (act_on_reply_events m sender reply st1) as (evs & Htr & Hin & Hsend & Hcfg).
  exists evs. rewrite Htr, Htr0. unfold st0 at 1. cbn [logged trace].
  rewrite <- !app_assoc, drop_app_length. cbn [app].
  split; [reflexivity|]. split; [exact Hin|]. split; [exact Hsend|].
  eapply same_configuration_trans; [exact Hcfg0|exact Hcfg].
Qed.

(** X18. [receive] asks the human at most once in a turn, and whether it
    asks is settled before the reply is known: always in the mode
    [ALWAYS]; in the mode [TERMINATE] when the counter of the sender has
    reached the limit or the message ends the conversation; never in any
    other mode. Nothing [receive] calls asks again. *)
Theorem receive_prompts_by_mode :
  forall message sender st,
    count is_input (turn_events message sender st)
    = if solicits (normalize message) sender st then 1%nat else 0%nat.
Proof.
  intros message sender st.
  destruct (receive_events message sender st) as (evs & Hev & Hin & _ & _).
  cbv zeta in Hev. rewrite Hev. cbn [count is_input]. rewrite count_app, Hin.
  unfold solicits.
  destruct (String.eqb (mode st) "ALWAYS"); cbn [orb]; [reflexivity|].
  destruct (String.eqb (mode st) "TERMINATE" && _); reflexivity.
Qed.

(** X19. In the mode [ALWAYS] the prompt comes first: after the
    bookkeeping of the base class the human is asked, and every other
    event of the turn, if any, follows the answer. *)
Theorem always_mode_prompts_first :
  forall message sender st,
    mode st = "ALWAYS" ->
    exists evs,
      turn_events message sender st
      = EvReceived (normalize message) sender
        :: EvInput prompt_always (fst (input prompt_always (world st)))
        :: evs
      /\ count is_input evs = 0%nat.
Proof.
  intros message sender st Hmode.
  destruct (receive_events message sender st) as (evs & Hev & Hin & _ & _).
  cbv zeta in Hev. rewrite Hmode in Hev. exists evs. split; [exact Hev|exact Hin].
Qed.

(** X20. At most one message is sent in a turn, whatever the mode, the
    message and the reply, and whether [receive] returns or raises. *)
Theorem receive_sends_at_most_once :
  forall message sender st,
    (count is_send (turn_events message sender st) <= 1)%nat.
Proof.
  intros message sender st.
  destruct (receive_events message sender st) as (evs & Hev & _ & Hsend & _).
  cbv zeta in Hev. rewrite Hev. cbn [count is_send]. rewrite count_app.
  destruct (String.eqb (mode st) "ALWAYS"); [cbn; lia|].
  destruct (solicits _ _ _); cbn; lia.
Qed.

(** X21. In the mode [ALWAYS] a reply typed by the human, other than
    [exit], is what the agent sends, as it is: the counter of the sender
    is reset, and the message is neither searched for code nor for a
    function call, so nothing is executed. *)
Theorem always_mode_sends_the_typed_reply :
  forall message sender st,
    mode st = "ALWAYS" ->
    fst (input prompt_always (world st)) <> EmptyString ->
    fst (input prompt_always (world st)) <> "exit" ->
    receive message sender st
    = (Return tt,
       State (set_counter (self st) (<[sender := 0]> (counters st)))
             (snd (input prompt_always (world st)))
             (trace st
              ++ [EvReceived (normalize message) sender;
                  EvInput prompt_always (fst (input prompt_always (world st)));
                  EvSend (OutText (fst (input prompt_always (world st)))) sender])).
Proof.
  intros message sender st Hmode Hne Hexit.
  rewrite receive_unfold. set (m := normalize message).
  set (typed := fst (input prompt_always (world st))) in *.
  erewrite bind_return
    by (rewrite get_reply_spec; cbn [logged self world trace];
        rewrite Hmode; reflexivity).
  fold typed.
  rewrite act_on_reply_human.
  - unfold logged, with_counter. cbn [self world trace].
    rewrite <- !app_assoc. reflexivity.
  - apply orb_false_iff. split.
    + apply String.eqb_neq, Hexit.
    + destruct typed; [congruence|]. apply andb_false_r.
  - destruct typed; [congruence|reflexivity].
Qed.

(** X22. In the mode [ALWAYS] the reply [exit] ends the turn, whatever the
    message holds: the counter of the sender is reset, nothing is sent
    and nothing is executed. *)
Theorem always_mode_exit_ends_the_turn :
  forall message sender st,
    mode st = "ALWAYS" ->
    fst (input prompt_always (world st)) = "exit" ->
    receive message sender st
    = (Return tt,
       State (set_counter (self st) (<[sender := 0]> (counters st)))
             (snd (input prompt_always (world st)))
             (trace st
              ++ [EvReceived (normalize message) sender;
                  EvInput prompt_always "exit"])).
Proof.
  intros message sender st Hmode Htyped.
  rewrite receive_unfold.
  erewrite bind_return
    by (rewrite get_reply_spec; cbn [logged self world trace];
        rewrite Hmode; reflexivity).
  rewrite Htyped. rewrite act_on_reply_stop by reflexivity.
  unfold logged, with_counter. cbn [self world trace].
  rewrite <- !app_assoc. reflexivity.
Qed.

Lemma after_receives_configuration (calls : list (message * string)) :
  forall st, same_configuration (self st) (self (after_receives calls st)).
Proof.
  induction calls as [|[m sender] calls IH]; intros st.
  - apply same_configuration_refl.
  - unfold after_receives. cbn [fold_left fst snd].
    destruct (receive_events m sender st) as (_ & _ & _ & _ & Hcfg).
    eapply same_configuration_trans; [exact Hcfg|]. apply IH.
Qed.

(** X23. No sequence of [receive] calls changes the configuration of the
    agent: the working directory, the mode, the termination predicate,
    the limit and the registry are those it started with. *)
Theorem receive_keeps_the_configuration :
  forall calls st, same_configuration (self st) (self (after_receives calls st)).
Proof.
  intros calls st. apply after_receives_configuration.
Qed.

Lemma receive_keeps_counters_at_most_limit (message : message) (sender : string)
    (st : state) :
  String.eqb (mode st) "ALWAYS" = false ->
  0 <= limit st ->
  (forall k, counter_of st k <= limit st) ->
  forall k, counter_of (after_receive message sender st) k <= limit st.
Proof.
  intros Hmode Hlim Hbound k.
  destruct (receive_counter message sender st) as (reply & Hreply & Hc & Ho & _).
  cbv zeta in Hreply, Hc, Ho.
  destruct (decide (k = sender)) as [->|Hne]; [|rewrite (Ho k Hne); apply Hbound].
  rewrite Hc.
  destruct (Py.truthy reply || terminates st (normalize message)) eqn:Hstop;
    [exact Hlim|].
  apply orb_false_iff in Hstop as [Htruthy Hterm].
  rewrite get_reply_spec in Hreply. cbn [logged self world] in Hreply.
  rewrite Hmode, Hterm, orb_false_r in Hreply.
  replace (counter_of (logged (EvReceived (normalize message) sender) st) sender)
    with (counter_of st sender) in Hreply by reflexivity.
  destruct (Z.leb_spec (limit st) (counter_of st sender)) as [Hle|Hlt]; [|lia].
  exfalso.
  destruct (String.eqb (mode st) "TERMINATE"); cbv zeta in Hreply;
    cbn [fst] in Hreply; injection Hreply as <-.
  - destruct (Py.truthy (fst (input prompt_terminate (world st)))) eqn:Ht;
      [congruence|discriminate Htruthy].
  - discriminate Htruthy.
Qed.

Lemma after_receives_at_most_limit (calls : list (message * string)) :
  forall st,
    String.eqb (mode st) "ALWAYS" = false ->
    0 <= limit st ->
    (forall sender, counter_of st sender <= limit st) ->
    forall sender, counter_of (after_receives calls st) sender <= limit st.
Proof.
  induction calls as [|[m s] calls IH]; intros st Hmode Hlim Hbound sender.
  - apply Hbound.
  - unfold after_receives. cbn [fold_left fst snd].
    destruct (receive_events m s st) as (_ & _ & _ & _ & Hcfg).
    destruct Hcfg as (_ & Hm & _ & Hl & _).
    fold (after_receive m s st) in *.
    fold (after_receives calls (after_receive m s st)).
    rewrite <- Hl. apply IH.
    + rewrite Hm. exact Hmode.
    + rewrite Hl. exact Hlim.
    + intros k. rewrite Hl.
      apply receive_keeps_counters_at_most_limit; assumption.
Qed.

(** X24. In every mode but [ALWAYS], with a limit that is not negative,
    the limit bounds the counters: if no counter is above it, none is
    after any sequence of [receive] calls. *)
Theorem limit_bounds_the_counters :
  forall calls st,
    String.eqb (mode st) "ALWAYS" = false ->
    0 <= limit st ->
    (forall sender, counter_of st sender <= limit st) ->
    forall sender, counter_of (after_receives calls st) sender <= limit st.
Proof.
  intros calls st. apply after_receives_at_most_limit.
Qed.

(** X25. For an agent the constructor has built, in a mode other than
    [ALWAYS] and with a limit that is not negative, at any later time,
    after any sequence of [receive] calls from any world: every counter
    is between 0 and the limit, the registry is the one given to the
    constructor, and each of its entries has one of the keys ["class"]
    and ["function"] and not the other. *)
Theorem constructed_agent_stays_well_formed :
  forall work_dir human_input_mode function_map max_auto_reply is_termination_msg
         use_docker a w calls,
    __init__ work_dir human_input_mode function_map max_auto_reply
             is_termination_msg use_docker
    = Return a ->
    String.eqb human_input_mode "ALWAYS" = false ->
    0 <= default 100 max_auto_reply ->
    let st' := after_receives calls (State a w []) in
    (forall sender, 0 <= counter_of st' sender <= default 100 max_auto_reply)
    /\ _function_map (self st') = function_map
    /\ (forall name e,
          _function_map (self st') !! name = Some e -> entry_is_valid e = true).
Proof.
  intros wd hmode fm lim term ud a w calls Hinit Hmode Hlim. cbv zeta.
  unfold __init__ in Hinit.
  destruct (forallb _ _) eqn:Hall; [|discriminate Hinit].
  injection Hinit as <-.
  set (a := Agent _ _ _ _ _ _ _).
  assert (Hl : limit (State a w []) = default 100 lim) by (destruct lim; reflexivity).
  destruct (after_receives_configuration calls (State a w []))
    as (_ & _ & _ & _ & Hfm).
  split; [|split].
  - intros sender. split.
    + apply counter_of_nonneg, after_receives_nonneg.
      intros k n H. cbn in H. rewrite lookup_empty in H. discriminate H.
    + rewrite <- Hl. apply after_receives_at_most_limit.
      * exact Hmode.
      * rewrite Hl. exact Hlim.
      * intros k. rewrite Hl. unfold counter_of. cbn. rewrite lookup_empty.
        exact Hlim.
  - rewrite Hfm. reflexivity.
  - rewrite Hfm. cbn [self _function_map a]. apply registry_check, Hall.
Qed.

End Turns.


(** ** The further statements on concrete runs *)

Section MoreRuns.

Import Demo.

(** X2 on a one-line JSON object. *)
Lemma format_json_str_keeps_plain_text_witness :
  _format_json_str ("{" +:+ Py.quoted "n" +:+ ": 1}") = "{" +:+ Py.quoted "n" +:+ ": 1}".
Proof. apply format_json_str_keeps_plain_text; reflexivity. Defined.

(** X3 on a list written over two lines, with a tab. *)
Lemma format_json_str_drops_newlines_outside_quotes_witness :
  _format_json_str ("[1," +:+ Py.chr Py.newline +:+ Py.chr Py.tab +:+ "2]")
  = without_newlines ("[1," +:+ Py.chr Py.newline +:+ Py.chr Py.tab +:+ "2]").
Proof. apply format_json_str_drops_newlines_outside_quotes. reflexivity. Defined.

(** X4 on a string literal with a newline and a tab. *)
Lemma format_json_str_escapes_inside_quotes_witness :
  _format_json_str (Py.quoted ("a" +:+ Py.chr Py.newline +:+ "b" +:+ Py.chr Py.tab +:+ "c"))
  = Py.quoted (escaped ("a" +:+ Py.chr Py.newline +:+ "b" +:+ Py.chr Py.tab +:+ "c")).
Proof. apply format_json_str_escapes_inside_quotes. reflexivity. Defined.

(** X5 on a name nobody registered. *)
Lemma execute_function_unknown_name_witness :
  _execute_function (FuncCall (Some "missing") None) idle
  = (Return (false,
             FuncReturn "missing" "function" "Error: Function missing not found."),
     idle).
Proof.
  apply (execute_function_unknown_name (FuncCall (Some "missing") None) idle).
  reflexivity.
Defined.

(** X6 on [add_num] with the argument 5: the content is [15]. *)
Lemma execute_function_direct_witness :
  _execute_function
    (FuncCall (Some "add_num") (Some ("{" +:+ Py.quoted "num_to_be_added" +:+ ": 5}")))
    idle
  = call_outcome "add_num" add_num_func
      (merged_arguments [(Json.codes "num_to_be_added", Json.JInt 5)]
                        (FuncEntry None (Some add_num_func) None None))
      idle.
Proof.
  apply (execute_function_direct
           (FuncCall (Some "add_num")
                     (Some ("{" +:+ Py.quoted "num_to_be_added" +:+ ": 5}")))
           (FuncEntry None (Some add_num_func) None None) add_num_func
           [(Json.codes "num_to_be_added", Json.JInt 5)] idle);
    reflexivity.
Defined.

Example add_num_returns_15 :
  fst (_execute_function
         (FuncCall (Some "add_num")
                   (Some ("{" +:+ Py.quoted "num_to_be_added" +:+ ": 5}")))
         idle)
  = Return (true, FuncReturn "add_num" "function" "15").
Proof. reflexivity. Qed.

(** X8 on the entry with a bound argument: called with a text that is
    not JSON, and called without the key ["arguments"]. *)
Lemma execute_function_when_arguments_do_not_decode_witness :
  _execute_function (FuncCall (Some "bound") (Some "{oops")) with_shapes
  = call_outcome "bound" add_ten
      (Json.dict_update [] [(Json.codes "num_to_be_added", @AObj ext 7)]) with_shapes
  /\ _execute_function (FuncCall (Some "bound") None) with_shapes
     = call_outcome "bound" add_ten
         (Json.dict_update [] [(Json.codes "num_to_be_added", @AObj ext 7)]) with_shapes.
Proof.
  split.
  - apply (execute_function_when_arguments_do_not_decode
             (FuncCall (Some "bound") (Some "{oops"))
             (FuncEntry None (Some add_ten) None
                        (Some [(Json.codes "num_to_be_added", @AObj ext 7)]))
             add_ten with_shapes);
      reflexivity.
  - apply (execute_function_when_arguments_do_not_decode
             (FuncCall (Some "bound") None)
             (FuncEntry None (Some add_ten) None
                        (Some [(Json.codes "num_to_be_added", @AObj ext 7)]))
             add_ten with_shapes);
      reflexivity.
Defined.

Example bound_argument_alone_gives_17 :
  fst (_execute_function (FuncCall (Some "bound") (Some "{oops")) with_shapes)
  = Return (true, FuncReturn "bound" "function" "17").
Proof. reflexivity. Qed.

(** X9 on the entry with an object and no method name. *)
Lemma execute_function_class_without_func_name_witness :
  exists content,
    _execute_function (FuncCall (Some "bare") (Some "{}")) with_shapes
    = (Return (false, FuncReturn "bare" "function" content), with_shapes)
    /\ Py.startswith content "Error: " = true.
Proof.
  apply (execute_function_class_without_func_name
           (FuncCall (Some "bare") (Some "{}"))
           (FuncEntry (Some add_num_object) None None None) add_num_object []
           with_shapes);
    reflexivity.
Defined.

(** X10 on the entry with an object and the method [add]. *)
Lemma execute_function_class_method_witness :
  _execute_function
    (FuncCall (Some "method") (Some ("{" +:+ Py.quoted "num_to_be_added" +:+ ": 5}")))
    with_shapes
  = call_outcome "method"
      (default (obj_call add_num_object) (obj_getattr add_num_object "add"))
      (merged_arguments [(Json.codes "num_to_be_added", Json.JInt 5)]
                        (FuncEntry (Some add_num_object) None (Some "add") None))
      with_shapes.
Proof.
  apply (execute_function_class_method
           (FuncCall (Some "method")
                     (Some ("{" +:+ Py.quoted "num_to_be_added" +:+ ": 5}")))
           (FuncEntry (Some add_num_object) None (Some "add") None)
           add_num_object "add"
           [(Json.codes "num_to_be_added", Json.JInt 5)] with_shapes);
    reflexivity.
Defined.

(** X11 on the registry with both keys in one entry. *)
Lemma init_checks_the_registry_witness :
  __init__ None "ALWAYS" both_keys None None true
  = Raise (Exception "AssertionError"
             "only one of 'class' and 'function' can exist in a function config.").
Proof.
  apply (proj2 (init_checks_the_registry None "ALWAYS" both_keys None None true)
               "add_num" (FuncEntry (Some add_num_object) (Some add_ten) None None));
    reflexivity.
Defined.

(** X12 on a shell block whose log is one byte that is not UTF-8. *)
Lemma execute_code_undecodable_log_raises_witness :
  @_execute_code binary_ext [("sh", "cat image.png"); ("sh", "ls")] binary_idle
  = (Raise (Exception "UnicodeDecodeError"
              "'utf-8' codec can't decode byte 0xff in position 0: invalid start byte"),
     @State binary_ext (self binary_idle) []
       [@EvExecuteCode binary_ext
          (ExecRequest "cat image.png" None None (DBool true) (Some "sh"))
          (ExecResponse 0 [Byte.xff] (Some "python:3-slim"))]).
Proof.
  apply (@execute_code_undecodable_log_raises binary_ext ("sh", "cat image.png")
           [("sh", "ls")] binary_idle);
    reflexivity.
Defined.

(** X14 on a message that asks for [add_num]. *)
Lemma auto_reply_function_call_witness :
  auto_reply call_add_num "bob" EmptyString idle
  = match _execute_function
            (FuncCall (Some "add_num")
                      (Some ("{" +:+ Py.quoted "num_to_be_added" +:+ ": 5}"))) idle with
    | (Return (_, func_return), st1) =>
        (Return tt, logged (EvSend (OutFunction func_return) "bob") st1)
    | (Raise e, st1) => (Raise e, st1)
    end
  /\ count is_execution
       (drop (length (trace idle))
             (trace (snd (auto_reply call_add_num "bob" EmptyString idle)))) = 0%nat.
Proof.
  apply (auto_reply_function_call call_add_num
           (FuncCall (Some "add_num")
                     (Some ("{" +:+ Py.quoted "num_to_be_added" +:+ ": 5}")))
           "bob" EmptyString idle).
  reflexivity.
Defined.

(** X15 on a message without code. *)
Lemma auto_reply_without_code_witness :
  auto_reply small_talk "bob" EmptyString idle
  = (Return tt, logged (EvSend (OutText EmptyString) "bob") idle).
Proof.
  apply (auto_reply_without_code small_talk "hello" "hello" "bob" EmptyString idle);
    reflexivity.
Defined.

(** X16 on a message with one shell block. *)
Lemma auto_reply_reports_execution_witness :
  auto_reply run_ls "bob" EmptyString idle
  = match _execute_code (extract_code "sh:ls") idle with
    | (Return (exitcode, logs), st1) =>
        (Return tt,
         logged (EvSend (OutText (execution_report exitcode logs)) "bob") st1)
    | (Raise e, st1) => (Raise e, st1)
    end.
Proof.
  apply (auto_reply_reports_execution run_ls "sh:ls" "bob" EmptyString idle);
    reflexivity.
Defined.

(** X17 on a message with neither a function call nor a content. *)
Lemma auto_reply_raises_without_content_witness :
  auto_reply no_content "bob" EmptyString idle
  = (Raise (Exception "KeyError" "'content'"), idle).
Proof.
  apply (auto_reply_raises_without_content no_content "bob" EmptyString idle);
    reflexivity.
Defined.

(** X19 on a message to an agent in the mode [ALWAYS]. *)
Lemma always_mode_prompts_first_witness :
  exists evs,
    turn_events (Dict run_ls) "bob" operator_replies
    = EvReceived (normalize (Dict run_ls)) "bob"
      :: EvInput prompt_always (fst (input prompt_always (world operator_replies)))
      :: evs
    /\ count is_input evs = 0%nat.
Proof.
  apply (always_mode_prompts_first (Dict run_ls) "bob" operator_replies).
  reflexivity.
Defined.

(** X21 on a message with code, answered by the operator. *)
Lemma always_mode_sends_the_typed_reply_witness :
  receive (Dict run_ls) "bob" operator_replies
  = (Return tt,
     State (set_counter (self operator_replies)
              (<["bob" := 0]> (_consecutive_auto_reply_counter (self operator_replies))))
           (snd (input prompt_always (world operator_replies)))
           (trace operator_replies
            ++ [EvReceived (normalize (Dict run_ls)) "bob";
                EvInput prompt_always (fst (input prompt_always (world operator_replies)));
                EvSend (OutText (fst (input prompt_always (world operator_replies))))
                       "bob"])).
Proof.
  apply (always_mode_sends_the_typed_reply (Dict run_ls) "bob" operator_replies).
  - reflexivity.
  - discriminate.
  - discriminate.
Defined.

(** X22 on a message with code, when the operator types [exit]. *)
Lemma always_mode_exit_ends_the_turn_witness :
  receive (Dict run_ls) "bob" operator_exits
  = (Return tt,
     State (set_counter (self operator_exits)
              (<["bob" := 0]> (_consecutive_auto_reply_counter (self operator_exits))))
           (snd (input prompt_always (world operator_exits)))
           (trace operator_exits
            ++ [EvReceived (normalize (Dict run_ls)) "bob";
                EvInput prompt_always "exit"])).
Proof.
  apply (always_mode_exit_ends_the_turn (Dict run_ls) "bob" operator_exits);
    reflexivity.
Defined.

(** X24 on three messages to a fresh agent in the mode [NEVER]. *)
Lemma limit_bounds_the_counters_witness :
  counter_of (after_receives [(Text "a", "bob"); (Text "b", "bob"); (Text "c", "eve")]
                             never_fresh) "bob"
  <= _max_consecutive_auto_reply (self never_fresh).
Proof.
  apply (limit_bounds_the_counters
           [(Text "a", "bob"); (Text "b", "bob"); (Text "c", "eve")] never_fresh).
  - reflexivity.
  - vm_compute. discriminate.
  - intros sender. vm_compute. discriminate.
Defined.

(** X25 on an agent built in the mode [NEVER] with the limit 2. *)
Lemma constructed_agent_stays_well_formed_witness :
  let st' :=
    after_receives [(Text "a", "bob"); (Text "sh:ls", "bob"); (Text "b", "bob")]
      (State (Agent None "NEVER" default_is_termination_msg 2 ∅ (DBool true) registry)
             [] []) in
  (forall sender, 0 <= counter_of st' sender <= default 100 (Some 2))
  /\ _function_map (self st') = registry
  /\ (forall name e,
        _function_map (self st') !! name = Some e -> entry_is_valid e = true).
Proof.
  apply (constructed_agent_stays_well_formed None "NEVER" registry (Some 2) None true
           (Agent None "NEVER" default_is_termination_msg 2 ∅ (DBool true) registry)
           [] [(Text "a", "bob"); (Text "sh:ls", "bob"); (Text "b", "bob")]).
  - reflexivity.
  - reflexivity.
  - vm_compute. discriminate.
Defined.

End MoreRuns.
